(** * eli5.sklearn.text: weighted spans and the residual feature weights

    A shallow embedding of [eli5/sklearn/text.py]: [get_weighted_spans],
    [_get_doc_weighted_spans], [_get_features],
    [_get_weighted_spans_from_union] and [_get_other].

    Modelling choices.
    - Weights are Python floats; they are modelled as rationals [Q].  The
      comparisons [>= 0], [< 0] and [abs] are the ones of [Q]; NaN,
      infinities and rounding of sums are outside the model.  The order in
      which [sum] adds the values of a dict is kept (insertion order).
    - A Python [dict] is an insertion-ordered association list with
      pairwise distinct keys ([PyDict]); assigning to a key that is already
      present replaces the value in place.
    - The features handed in by the explainer are [str] or [list] (the name
      filter of the union is declared [Callable[[str], str]]);
      [FormattedFeatureName] only labels the synthetic entries that
      [_get_other] creates.
    - [build_span_analyzer] (eli5.sklearn._span_analyzers) and the class
      [VectorizerMixin] (sklearn) are not part of the sources; they are
      parameters of the development.  The generator returned by a span
      analyzer is modelled by the finite list of pairs it yields.
    - The classes tested with [isinstance] are the constructors of
      [Vectorizer]: an [InvertableHashingVectorizer] or a [FeatureUnion] is
      not itself a [VectorizerMixin].
    - The set [accounted_keys] is the list of its members, in the order in
      which they were added. *)

From Stdlib Require Import List String Ascii Bool Arith Lia.
From Stdlib Require Import QArith Qabs Lqa.
From Stdlib Require Import Permutation Sorted FinFun.
Import ListNotations.
Close Scope Q_scope.
Local Open Scope list_scope.

(** ** Insertion-ordered dictionaries *)

Module PyDict.
Section Dict.
Context {K V : Type}.
Variable eqb : K -> K -> bool.

(** [d[k]], [None] standing for [KeyError]. *)
Fixpoint get (d : list (K * V)) (k : K) : option V :=
  match d with
  | [] => None
  | (k', v) :: d' => if eqb k' k then Some v else get d' k
  end.

(** [d[k] = v]: an existing key keeps its place, a new key goes last. *)
Fixpoint setitem (d : list (K * V)) (k : K) (v : V) : list (K * V) :=
  match d with
  | [] => [(k, v)]
  | (k', v') :: d' =>
      if eqb k' k then (k', v) :: d' else (k', v') :: setitem d' k v
  end.

(** [k in d] *)
Definition mem (d : list (K * V)) (k : K) : bool :=
  match get d k with Some _ => true | None => false end.

(** [d.update(other)] *)
Definition update (d other : list (K * V)) : list (K * V) :=
  fold_left (fun acc kv => setitem acc (fst kv) (snd kv)) other d.

(** [{k: v for (k, v) in items}] *)
Definition of_items (items : list (K * V)) : list (K * V) :=
  update [] items.

Definition keys (d : list (K * V)) : list K := map fst d.
Definition values (d : list (K * V)) : list V := map snd d.

(** truth value of a dict *)
Definition nonempty (d : list (K * V)) : bool :=
  match d with [] => false | _ :: _ => true end.
End Dict.
End PyDict.

(** ** Data model (eli5.base) *)

(** One part of a composite feature: a dict of which only ['name'] is read. *)
Record Part := mkPart { name : string }.

(** The feature of a [FeatureWeight] handed in by the explainer. *)
Inductive Feature :=
| Atomic (f : string)
| Composite (parts : list Part).

(** The feature of an entry of the residual: an original feature kept as it
    is, or the [FormattedFeatureName] label of a synthetic entry. *)
Inductive OtherFeature :=
| Kept (f : Feature)
| FormattedFeatureName (value : string).

Record FeatureWeight (F : Type) := mkFeatureWeight
  { feature : F; weight : Q }.
Arguments mkFeatureWeight {F} _ _.
Arguments feature {F} _.
Arguments weight {F} _.

Record FeatureWeights (F : Type) := mkFeatureWeights
  { pos : list (FeatureWeight F);
    neg : list (FeatureWeight F);
    pos_remaining : nat;
    neg_remaining : nat }.
Arguments mkFeatureWeights {F} _ _ _ _.
Arguments pos {F} _.
Arguments neg {F} _.
Arguments pos_remaining {F} _.
Arguments neg_remaining {F} _.

(** The two group names ['pos'] and ['neg']. *)
Inductive Group := gpos | gneg.

Definition getattr {F} (fw : FeatureWeights F) (group : Group)
  : list (FeatureWeight F) :=
  match group with gpos => pos fw | gneg => neg fw end.

(** [(group, idx)] is a feature key. *)
Definition Key : Type := Group * nat.

Definition group_eqb (a b : Group) : bool :=
  match a, b with
  | gpos, gpos | gneg, gneg => true
  | _, _ => false
  end.

Definition key_eqb (a b : Key) : bool :=
  group_eqb (fst a) (fst b) && Nat.eqb (snd a) (snd b).

Definition FoundFeatures : Type := list (Key * Q).

Definition Span : Type := nat * nat.

Record DocWeightedSpans := mkDocWeightedSpans
  { document : string;
    spans : list (string * list Span * Q);
    preserve_density : bool;
    vec_name : option string }.

Record WeightedSpans := mkWeightedSpans
  { docs : list DocWeightedSpans;
    other : FeatureWeights OtherFeature }.

(** [enumerate(l)] *)
Definition enumerate {A} (l : list A) : list (nat * A) :=
  combine (seq 0 (List.length l)) l.

(** The entry of [feature_weights] a key points to. *)
Definition entry_at {F} (fw : FeatureWeights F) (key : Key)
  : option (FeatureWeight F) :=
  nth_error (getattr fw (fst key)) (snd key).

(** ** Feature names and the name filter *)

(** [x[n:]] *)
Fixpoint string_drop (n : nat) (x : string) : string :=
  match n, x with
  | O, _ => x
  | S n', String _ x' => string_drop n' x'
  | S _, EmptyString => EmptyString
  end.

(** [filter(None, xs)]: [None] and the empty string are dropped. *)
Fixpoint filter_truthy (xs : list (option string)) : list string :=
  match xs with
  | [] => []
  | Some EmptyString :: xs' => filter_truthy xs'
  | Some s :: xs' => s :: filter_truthy xs'
  | None :: xs' => filter_truthy xs'
  end.

Definition _get_features (feature : Feature)
    (feature_fn : option (string -> option string)) : list string :=
  let features :=
    match feature with
    | Composite parts => map name parts
    | Atomic f => [f]
    end in
  match feature_fn with
  | Some fn => filter_truthy (map fn features)
  | None => features
  end.

(** ['{}__'.format(vec_name)] *)
Definition vec_prefix (vec_name : string) : string :=
  String.append vec_name "__"%string.

(** [lambda x: x[len(vec_prefix):] if x.startswith(vec_prefix) else None] *)
Definition union_feature_fn (vec_name : string) (x : string) : option string :=
  if String.prefix (vec_prefix vec_name) x
  then Some (string_drop (String.length (vec_prefix vec_name)) x)
  else None.

(** ** The lookup table and the scan of the analyzer's output *)

Definition Table : Type := list (string * (Q * Key)).

(** The entries of [feature_weights] with their keys, in the order of
    [for group in ['pos', 'neg'] for idx, fw in enumerate(getattr(..., group))]. *)
Definition keyed {F} (group : Group) (fws : list (FeatureWeight F))
  : list (Key * FeatureWeight F) :=
  map (fun ifw => ((group, fst ifw), snd ifw)) (enumerate fws).

Definition keyed_entries {F} (feature_weights : FeatureWeights F)
  : list (Key * FeatureWeight F) :=
  flat_map (fun group => keyed group (getattr feature_weights group))
           [gpos; gneg].

(** The [(f, (fw.weight, (group, idx)))] items one entry contributes to the
    dict comprehension of [_get_doc_weighted_spans]. *)
Definition entry_items (feature_fn : option (string -> option string))
    (kfw : Key * FeatureWeight Feature) : list (string * (Q * Key)) :=
  map (fun f => (f, (weight (snd kfw), fst kfw)))
      (_get_features (feature (snd kfw)) feature_fn).

Definition table_items (feature_weights : FeatureWeights Feature)
    (feature_fn : option (string -> option string))
  : list (string * (Q * Key)) :=
  flat_map (entry_items feature_fn) (keyed_entries feature_weights).

Definition feature_weights_dict (feature_weights : FeatureWeights Feature)
    (feature_fn : option (string -> option string)) : Table :=
  PyDict.of_items String.eqb (table_items feature_weights feature_fn).

(** One turn of the loop over [span_analyzer(preprocessed_doc)]; the state is
    [(spans, found_features)]. *)
Definition scan_step (tbl : Table)
    (st : list (string * list Span * Q) * FoundFeatures)
    (item : list Span * string)
  : list (string * list Span * Q) * FoundFeatures :=
  let '(f_spans, feature) := item in
  match PyDict.get String.eqb tbl feature with
  | None => st
  | Some (weight, key) =>
      (fst st ++ [(feature, f_spans, weight)],
       PyDict.setitem key_eqb (snd st) key weight)
  end.

Definition scan (tbl : Table) (items : list (list Span * string))
  : list (string * list Span * Q) * FoundFeatures :=
  fold_left (scan_step tbl) items ([], []).

(** ** The residual: [_get_other] *)

(** [all_found_features], after the loop of [update]s. *)
Definition all_found_features (named_found_features : list (string * FoundFeatures))
  : FoundFeatures :=
  fold_left (fun acc nf => PyDict.update key_eqb acc (snd nf))
            named_found_features [].

(** An original entry appended to [other_items]. *)
Definition keep (fw : FeatureWeight Feature) : FeatureWeight OtherFeature :=
  mkFeatureWeight (Kept (feature fw)) (weight fw).

(** One turn of the loop over the original entries; the state is
    [(other_items, accounted_keys)], the set being kept as the list of its
    members. *)
Definition unmatched_step (all_found : FoundFeatures)
    (st : list (FeatureWeight OtherFeature) * list Key)
    (kfw : Key * FeatureWeight Feature)
  : list (FeatureWeight OtherFeature) * list Key :=
  let '(key, fw) := kfw in
  if negb (PyDict.mem key_eqb all_found key)
     && negb (existsb (key_eqb key) (snd st))
  then (fst st ++ [keep fw], snd st ++ [key])
  else st.

Definition unmatched (feature_weights : FeatureWeights Feature)
    (named_found_features : list (string * FoundFeatures))
  : list (FeatureWeight OtherFeature) * list Key :=
  fold_left (unmatched_step (all_found_features named_found_features))
            (keyed_entries feature_weights) ([], []).

(** ['{}Highlighted in text (sum)'.format('{}: '.format(vec_name) if vec_name else '')] *)
Definition summary_label (vec_name : string) : string :=
  String.append
    (match vec_name with
     | EmptyString => EmptyString
     | _ => String.append vec_name ": "%string
     end)
    "Highlighted in text (sum)"%string.

(** [sum(values)]: starts from 0 and adds from left to right. *)
Definition pysum (values : list Q) : Q := fold_left Qplus values 0%Q.

Definition summary (vec_name : string) (found_features : FoundFeatures)
  : FeatureWeight OtherFeature :=
  mkFeatureWeight (FormattedFeatureName (summary_label vec_name))
                  (pysum (PyDict.values found_features)).

(** One turn of the loop over [named_found_features]. *)
Definition summary_step (other_items : list (FeatureWeight OtherFeature))
    (nf : string * FoundFeatures) : list (FeatureWeight OtherFeature) :=
  let '(vec_name, found_features) := nf in
  if PyDict.nonempty found_features
  then other_items ++ [summary vec_name found_features]
  else other_items.

(** [other_items] just before it is sorted. *)
Definition other_items_appended (feature_weights : FeatureWeights Feature)
    (named_found_features : list (string * FoundFeatures))
  : list (FeatureWeight OtherFeature) :=
  fold_left summary_step named_found_features
            (fst (unmatched feature_weights named_found_features)).

(** [a < b] on weights *)
Definition Qlt_bool (a b : Q) : bool := negb (Qle_bool b a).

(** [list.sort(key=lambda x: abs(x.weight), reverse=True)].  The sort of
    Python is stable, also with [reverse=True]; it is modelled by the stable
    insertion sort: an element is put before the first element whose key is
    not greater than its own. *)
Fixpoint insert_abs_desc {F} (x : FeatureWeight F) (l : list (FeatureWeight F))
  : list (FeatureWeight F) :=
  match l with
  | [] => [x]
  | y :: l' =>
      if Qlt_bool (Qabs (weight x)) (Qabs (weight y))
      then y :: insert_abs_desc x l'
      else x :: l
  end.

Definition sort_abs_desc {F} (l : list (FeatureWeight F))
  : list (FeatureWeight F) :=
  fold_right insert_abs_desc [] l.

(** [other_items] after the sort. *)
Definition other_items_sorted (feature_weights : FeatureWeights Feature)
    (named_found_features : list (string * FoundFeatures))
  : list (FeatureWeight OtherFeature) :=
  sort_abs_desc (other_items_appended feature_weights named_found_features).

Definition _get_other (feature_weights : FeatureWeights Feature)
    (named_found_features : list (string * FoundFeatures))
  : FeatureWeights OtherFeature :=
  let other_items := other_items_sorted feature_weights named_found_features in
  mkFeatureWeights
    (filter (fun fw => Qle_bool 0 (weight fw)) other_items)
    (filter (fun fw => Qlt_bool (weight fw) 0) other_items)
    (pos_remaining feature_weights)
    (neg_remaining feature_weights).

(** ** Alignment of one source, of a union, and the dispatch *)

Section Text.

(** sklearn's text vectorizers and the configuration read from them *)
Variable VectorizerMixin : Type.
Variable analyzer : VectorizerMixin -> string.

(** [build_span_analyzer(doc, vec)]: the span analyzer ([None] when the
    analyzer declines) and the preprocessed document. *)
Variable build_span_analyzer :
  string -> VectorizerMixin ->
  option (string -> list (list Span * string)) * string.

#[warnings="-register-all"]
Inductive Vectorizer :=
| TextVectorizer (v : VectorizerMixin)
| InvertableHashingVectorizer (vec : Vectorizer)
| FeatureUnion (transformer_list : list (string * Vectorizer))
| OtherEstimator.

Definition _get_doc_weighted_spans (doc : string) (vec : Vectorizer)
    (feature_weights : FeatureWeights Feature)
    (feature_fn : option (string -> option string))
  : option (FoundFeatures * DocWeightedSpans) :=
  let vec :=
    match vec with
    | InvertableHashingVectorizer inner => inner
    | _ => vec
    end in
  match vec with
  | TextVectorizer v =>
      let '(span_analyzer, preprocessed_doc) := build_span_analyzer doc v in
      match span_analyzer with
      | None => None
      | Some span_analyzer =>
          let tbl := feature_weights_dict feature_weights feature_fn in
          let '(spans, found_features) :=
            scan tbl (span_analyzer preprocessed_doc) in
          Some (found_features,
                mkDocWeightedSpans preprocessed_doc spans
                  (String.prefix "char" (analyzer v)) None)
      end
  | _ => None
  end.

(** [doc_weighted_spans.vec_name = vec_name] *)
Definition set_vec_name (d : DocWeightedSpans) (vec_name : string)
  : DocWeightedSpans :=
  mkDocWeightedSpans (document d) (spans d) (preserve_density d)
                     (Some vec_name).

(** One turn of the loop over [vec_union.transformer_list]; the state is
    [(docs_weighted_spans, named_found_features)]. *)
Definition union_step (doc : string)
    (feature_weights : FeatureWeights Feature)
    (st : list DocWeightedSpans * list (string * FoundFeatures))
    (nv : string * Vectorizer)
  : list DocWeightedSpans * list (string * FoundFeatures) :=
  let '(vec_name, vec) := nv in
  match _get_doc_weighted_spans doc vec feature_weights
          (Some (union_feature_fn vec_name)) with
  | Some (found_features, doc_weighted_spans) =>
      (fst st ++ [set_vec_name doc_weighted_spans vec_name],
       snd st ++ [(vec_name, found_features)])
  | None => st
  end.

Definition _get_weighted_spans_from_union (doc : string)
    (transformer_list : list (string * Vectorizer))
    (feature_weights : FeatureWeights Feature) : option WeightedSpans :=
  let '(docs_weighted_spans, named_found_features) :=
    fold_left (union_step doc feature_weights) transformer_list ([], []) in
  match docs_weighted_spans with
  | [] => None
  | _ :: _ =>
      Some (mkWeightedSpans docs_weighted_spans
              (_get_other feature_weights named_found_features))
  end.

Definition get_weighted_spans (doc : string) (vec : Vectorizer)
    (feature_weights : FeatureWeights Feature) : option WeightedSpans :=
  match vec with
  | FeatureUnion transformer_list =>
      _get_weighted_spans_from_union doc transformer_list feature_weights
  | _ =>
      match _get_doc_weighted_spans doc vec feature_weights None with
      | Some (found_features, doc_weighted_spans) =>
          Some (mkWeightedSpans [doc_weighted_spans]
                  (_get_other feature_weights
                     [(EmptyString, found_features)]))
      | None => None
      end
  end.

End Text.

Arguments TextVectorizer {VectorizerMixin} _.
Arguments InvertableHashingVectorizer {VectorizerMixin} _.
Arguments FeatureUnion {VectorizerMixin} _.
Arguments OtherEstimator {VectorizerMixin}.

(** ** Vocabulary of the statements *)

Definition key_eq_dec (a b : Key) : {a = b} + {a <> b}.
Proof. decide equality; [apply Nat.eq_dec | decide equality]. Defined.

(** [x] may stand before [y] in a list sorted by descending absolute weight. *)
Definition abs_ge {F} (x y : FeatureWeight F) : Prop :=
  (Qabs (weight y) <= Qabs (weight x))%Q.

(** The entries whose absolute weight is [m]. *)
Definition same_abs {F} (m : Q) (x : FeatureWeight F) : bool :=
  Qeq_bool (Qabs (weight x)) m.

(** [l1] is [l2] with some elements left out, the others in their order. *)
Inductive subseq {A : Type} : list A -> list A -> Prop :=
| subseq_nil : subseq [] []
| subseq_skip x l1 l2 : subseq l1 l2 -> subseq l1 (x :: l2)
| subseq_take x l1 l2 : subseq l1 l2 -> subseq (x :: l1) (x :: l2).

(** The synthetic entries of a residual. *)
Definition is_summary (fw : FeatureWeight OtherFeature) : bool :=
  match feature fw with
  | FormattedFeatureName _ => true
  | Kept _ => false
  end.

(** The text vectorizer [_get_doc_weighted_spans] ends up with, if any: the
    vectorizer itself or the one an [InvertableHashingVectorizer] wraps. *)
Definition text_vectorizer {VectorizerMixin : Type}
    (vec : Vectorizer VectorizerMixin) : option VectorizerMixin :=
  match vec with
  | TextVectorizer v => Some v
  | InvertableHashingVectorizer (TextVectorizer v) => Some v
  | _ => None
  end.

(** The sources of a union whose alignment did not return [None], with
    what it returned. *)
Definition union_results {VectorizerMixin : Type}
    (analyzer : VectorizerMixin -> string)
    (build_span_analyzer :
       string -> VectorizerMixin ->
       option (string -> list (list Span * string)) * string)
    (doc : string)
    (transformer_list : list (string * Vectorizer VectorizerMixin))
    (feature_weights : FeatureWeights Feature)
  : list (string * (FoundFeatures * DocWeightedSpans)) :=
  flat_map
    (fun nv =>
       match _get_doc_weighted_spans VectorizerMixin analyzer
               build_span_analyzer doc (snd nv) feature_weights
               (Some (union_feature_fn (fst nv))) with
       | Some r => [(fst nv, r)]
       | None => []
       end)
    transformer_list.

(** The spans the scan emits: one per pair of the analyzer whose identifier
    is in the table, in the order of the analyzer. *)
Definition emitted (tbl : Table) (items : list (list Span * string))
  : list (string * list Span * Q) :=
  flat_map
    (fun item : list Span * string =>
       match PyDict.get String.eqb tbl (snd item) with
       | Some (w, _) => [(snd item, fst item, w)]
       | None => []
       end)
    items.

(** The pairs the span analyzer of a source yields on a document (none when
    the source is not analyzed). *)
Definition analyzed {VectorizerMixin : Type}
    (build_span_analyzer :
       string -> VectorizerMixin ->
       option (string -> list (list Span * string)) * string)
    (doc : string) (vec : Vectorizer VectorizerMixin)
  : list (list Span * string) :=
  match text_vectorizer vec with
  | Some v =>
      match fst (build_span_analyzer doc v) with
      | Some span_analyzer => span_analyzer (snd (build_span_analyzer doc v))
      | None => []
      end
  | None => []
  end.

(** [build_span_analyzer] accepts the source: it is a text vectorizer and
    the span analyzer does not decline. *)
Definition analyzable {VectorizerMixin : Type}
    (build_span_analyzer :
       string -> VectorizerMixin ->
       option (string -> list (list Span * string)) * string)
    (doc : string) (vec : Vectorizer VectorizerMixin) : bool :=
  match text_vectorizer vec with
  | Some v =>
      match fst (build_span_analyzer doc v) with
      | Some _ => true
      | None => false
      end
  | None => false
  end.



(** ** Concrete inputs for the examples *)

Module Demo.

(** A stand-in for a text vectorizer: the name of its analyzer and the pairs
    its span analyzer yields ([None] when it declines); the document is
    preprocessed to itself. *)
Record vectorizer := mkVectorizer
  { analyzer : string;
    yields : option (list (list Span * string)) }.

Definition build_span_analyzer (doc : string) (v : vectorizer)
  : option (string -> list (list Span * string)) * string :=
  (match yields v with
   | Some pairs => Some (fun _ : string => pairs)
   | None => None
   end, doc).

Definition fw (f : Feature) (w : Q) : FeatureWeight Feature :=
  mkFeatureWeight f w.

(** "good movie" seen by a word analyzer *)
Definition words : Vectorizer vectorizer :=
  TextVectorizer
    (mkVectorizer "word"
       (Some [([(0, 4)], "good"%string); ([(5, 10)], "movie"%string)])).

(** an analyzer that finds nothing, and one that declines *)
Definition silent : Vectorizer vectorizer :=
  TextVectorizer (mkVectorizer "char_wb" (Some [])).
Definition declining : Vectorizer vectorizer :=
  TextVectorizer (mkVectorizer "word" None).

(** a source that discovers the identifier "tok" *)
Definition tok_source : Vectorizer vectorizer :=
  TextVectorizer (mkVectorizer "word" (Some [([(0, 3)], "tok"%string)])).

Definition good_bad : FeatureWeights Feature :=
  mkFeatureWeights [fw (Atomic "good") (2 # 1)] [fw (Atomic "bad") (- 1 # 1)] 0 0.

Definition union_weights : FeatureWeights Feature :=
  mkFeatureWeights
    [fw (Atomic "a__tok") (1 # 1); fw (Atomic "b__tok") (3 # 1)] [] 0 0.

(** a composite entry and, after it, an atomic entry named like its part *)
Definition shadowed : FeatureWeights Feature :=
  mkFeatureWeights
    [fw (Composite [mkPart "good"]) (1 # 1); fw (Atomic "good") (2 # 1)]
    [] 0 0.

(** a composite entry whose second part nobody else names *)
Definition composite_weights : FeatureWeights Feature :=
  mkFeatureWeights
    [fw (Composite [mkPart "nice"; mkPart "movie"]) (1 # 2)]
    [fw (Atomic "bad") (- 1 # 1)] 0 0.

End Demo.

(** * Properties *)

(** ** Dictionaries *)

Module PyDictFacts.
Import PyDict.
Section Facts.
Context {K V : Type}.
Variable eqb : K -> K -> bool.
Hypothesis eqb_eq : forall a b, eqb a b = true <-> a = b.

Lemma eqb_refl k : eqb k k = true.
Proof. now apply eqb_eq. Qed.

Lemma eqb_neq a b : a <> b -> eqb a b = false.
Proof.
  intros H. destruct (eqb a b) eqn:E; [|reflexivity].
  apply eqb_eq in E. contradiction.
Qed.

Lemma get_setitem (d : list (K * V)) k k' v :
  get eqb (setitem eqb d k v) k' = if eqb k k' then Some v else get eqb d k'.
Proof.
  induction d as [|[a w] d IH]; simpl.
  - reflexivity.
  - destruct (eqb a k) eqn:Eak; simpl.
    + apply eqb_eq in Eak. rewrite Eak. now destruct (eqb k k').
    + rewrite IH. destruct (eqb a k') eqn:Eak'; [|reflexivity].
      apply eqb_eq in Eak'. rewrite <- Eak'.
      rewrite (eqb_neq k a); [reflexivity|].
      intros ->. rewrite eqb_refl in Eak. discriminate.
Qed.

Lemma mem_In_keys (d : list (K * V)) k :
  mem eqb d k = true <-> In k (keys d).
Proof.
  unfold mem, keys. induction d as [|[a w] d IH]; simpl.
  - split; [discriminate | tauto].
  - destruct (eqb a k) eqn:E.
    + apply eqb_eq in E. tauto.
    + rewrite IH. split; [tauto|]. intros [H|H]; [|exact H].
      apply eqb_eq in H. congruence.
Qed.

Lemma get_None_keys (d : list (K * V)) k :
  get eqb d k = None <-> ~ In k (keys d).
Proof.
  rewrite <- mem_In_keys. unfold mem.
  destruct (get eqb d k); split; congruence.
Qed.

Lemma get_In (d : list (K * V)) k v : get eqb d k = Some v -> In (k, v) d.
Proof.
  induction d as [|[a w] d IH]; simpl; [discriminate|].
  destruct (eqb a k) eqn:E.
  - apply eqb_eq in E. intros [= ->]. subst. now left.
  - intros H. right. now apply IH.
Qed.

Lemma keys_setitem (d : list (K * V)) k v :
  keys (setitem eqb d k v) = if mem eqb d k then keys d else keys d ++ [k].
Proof.
  unfold mem, keys. induction d as [|[a w] d IH]; simpl.
  - reflexivity.
  - destruct (eqb a k) eqn:E; simpl.
    + reflexivity.
    + rewrite IH. now destruct (get eqb d k).
Qed.

Lemma NoDup_keys_setitem (d : list (K * V)) k v :
  NoDup (keys d) -> NoDup (keys (setitem eqb d k v)).
Proof.
  intros H. rewrite keys_setitem. destruct (mem eqb d k) eqn:E; [exact H|].
  apply NoDup_app; [exact H | repeat constructor; simpl; tauto |].
  intros x Hx [<-|[]]. apply mem_In_keys in Hx. congruence.
Qed.

Lemma In_keys_setitem (d : list (K * V)) k v x :
  In x (keys (setitem eqb d k v)) <-> In x (keys d) \/ x = k.
Proof.
  rewrite keys_setitem. destruct (mem eqb d k) eqn:E.
  - apply mem_In_keys in E. split; [tauto|]. intros [H| ->]; assumption.
  - rewrite in_app_iff. simpl. intuition congruence.
Qed.

Lemma NoDup_keys_update (d o : list (K * V)) :
  NoDup (keys d) -> NoDup (keys (update eqb d o)).
Proof.
  unfold update. revert d. induction o as [|[k v] o IH]; simpl; intros d H.
  - exact H.
  - apply IH. now apply NoDup_keys_setitem.
Qed.

Lemma In_keys_update (d o : list (K * V)) x :
  In x (keys (update eqb d o)) <-> In x (keys d) \/ In x (keys o).
Proof.
  unfold update. revert d. induction o as [|[k v] o IH]; simpl; intros d.
  - tauto.
  - rewrite IH, In_keys_setitem. intuition congruence.
Qed.

Lemma get_update_notin (d o : list (K * V)) k :
  ~ In k (keys o) -> get eqb (update eqb d o) k = get eqb d k.
Proof.
  unfold update. revert d. induction o as [|[a v] o IH]; simpl; intros d H.
  - reflexivity.
  - rewrite IH by tauto. rewrite get_setitem.
    rewrite eqb_neq; [reflexivity | tauto].
Qed.

(** The last item written under a key is the one a lookup returns. *)
Lemma get_update_last (d l1 l2 : list (K * V)) k v :
  ~ In k (keys l2) ->
  get eqb (update eqb d (l1 ++ (k, v) :: l2)) k = Some v.
Proof.
  intros H. unfold update. rewrite fold_left_app. simpl.
  fold (update eqb (setitem eqb (fold_left (fun acc kv => setitem eqb acc (fst kv) (snd kv)) l1 d) k v) l2).
  rewrite get_update_notin by exact H.
  rewrite get_setitem. now rewrite eqb_refl.
Qed.

Lemma get_update_In (d o : list (K * V)) k v :
  get eqb (update eqb d o) k = Some v -> In (k, v) o \/ get eqb d k = Some v.
Proof.
  unfold update. revert d. induction o as [|[a w] o IH]; simpl; intros d H.
  - now right.
  - apply IH in H. destruct H as [H|H]; [tauto|].
    rewrite get_setitem in H. destruct (eqb a k) eqn:E.
    + apply eqb_eq in E. injection H as ->. subst. tauto.
    + now right.
Qed.

End Facts.
End PyDictFacts.

(** ** Keys and entries *)

Lemma key_eqb_eq (a b : Key) : key_eqb a b = true <-> a = b.
Proof.
  destruct a as [g i], b as [h j]. unfold key_eqb. simpl.
  rewrite andb_true_iff, Nat.eqb_eq. split.
  - intros [Hg ->]. destruct g, h; try discriminate; reflexivity.
  - intros [= -> ->]. split; [now destruct h | reflexivity].
Qed.

Lemma In_combine_seq {A} (l : list A) s i x :
  In (i, x) (combine (seq s (List.length l)) l) <->
  s <= i /\ nth_error l (i - s) = Some x.
Proof.
  revert s. induction l as [|a l IH]; intros s; simpl.
  - split; [tauto|]. intros [_ H]. now destruct (i - s).
  - rewrite IH. split.
    + intros [[= <- <-]|[Hle H]].
      * rewrite Nat.sub_diag. split; [lia | reflexivity].
      * split; [lia|]. replace (i - s) with (S (i - S s)) by lia. exact H.
    + intros [Hle H]. destruct (i - s) as [|n] eqn:E; simpl in H.
      * left. injection H as ->. f_equal. lia.
      * right. split; [lia|]. replace (i - S s) with n by lia. exact H.
Qed.

Lemma In_enumerate {A} (l : list A) i x :
  In (i, x) (enumerate l) <-> nth_error l i = Some x.
Proof.
  unfold enumerate. rewrite In_combine_seq, Nat.sub_0_r.
  split; [tauto | split; [lia | assumption]].
Qed.

Lemma map_fst_enumerate {A} (l : list A) :
  map fst (enumerate l) = seq 0 (List.length l).
Proof.
  unfold enumerate. generalize 0. induction l as [|a l IH]; intros s; simpl.
  - reflexivity.
  - now rewrite IH.
Qed.

Lemma In_keyed {F} g (l : list (FeatureWeight F)) k x :
  In (k, x) (keyed g l) <-> fst k = g /\ nth_error l (snd k) = Some x.
Proof.
  unfold keyed. rewrite in_map_iff. destruct k as [h i]. simpl. split.
  - intros [[j y] [[= <- <- <-] H]]. apply In_enumerate in H. auto.
  - intros [<- H]. exists (i, x). split; [reflexivity|]. now apply In_enumerate.
Qed.

Lemma In_keyed_entries {F} (fw : FeatureWeights F) k x :
  In (k, x) (keyed_entries fw) <-> entry_at fw k = Some x.
Proof.
  unfold keyed_entries, entry_at. simpl. rewrite app_nil_r, in_app_iff.
  rewrite !In_keyed. destruct k as [[] i]; simpl; split; intros H.
  - destruct H as [[_ H]|[H _]]; [exact H | discriminate].
  - left. auto.
  - destruct H as [[H _]|[_ H]]; [discriminate | exact H].
  - right. auto.
Qed.

Lemma NoDup_keyed_entries {F} (fw : FeatureWeights F) :
  NoDup (map fst (keyed_entries fw)).
Proof.
  assert (Hk : forall g (l : list (FeatureWeight F)),
             map fst (keyed g l) = map (pair g) (seq 0 (List.length l))).
  { intros g l. unfold keyed. rewrite map_map. simpl.
    rewrite <- map_fst_enumerate, map_map. reflexivity. }
  unfold keyed_entries. simpl. rewrite app_nil_r, map_app, !Hk.
  apply NoDup_app.
  - apply Injective_map_NoDup; [intros a b [= ->]; reflexivity | apply seq_NoDup].
  - apply Injective_map_NoDup; [intros a b [= ->]; reflexivity | apply seq_NoDup].
  - intros k H1 H2. apply in_map_iff in H1, H2.
    destruct H1 as [i [<- _]], H2 as [j [[=] _]].
Qed.

(** ** The residual accountant *)

Lemma NoDup_all_found_features nff :
  NoDup (PyDict.keys (all_found_features nff)).
Proof.
  unfold all_found_features.
  assert (H : NoDup (PyDict.keys (@nil (Key * Q)))) by constructor.
  revert H. generalize (@nil (Key * Q)).
  induction nff as [|nf nff IH]; simpl; intros d H.
  - exact H.
  - apply IH. now apply (PyDictFacts.NoDup_keys_update key_eqb key_eqb_eq).
Qed.

Lemma In_all_found_features nff key :
  In key (PyDict.keys (all_found_features nff)) <->
  exists nf, In nf nff /\ In key (PyDict.keys (snd nf)).
Proof.
  unfold all_found_features.
  assert (G : forall d : FoundFeatures,
             In key (PyDict.keys
                       (fold_left (fun acc nf => PyDict.update key_eqb acc (snd nf)) nff d))
             <-> In key (PyDict.keys d) \/
                 exists nf, In nf nff /\ In key (PyDict.keys (snd nf))).
  { induction nff as [|nf nff IH]; simpl; intros d.
    - split; [tauto|]. intros [H|[nf [[] _]]]. exact H.
    - rewrite IH, (PyDictFacts.In_keys_update key_eqb key_eqb_eq). split.
      + intros [[H|H]|[x [Hx H]]]; eauto.
      + intros [H|[x [[<-|Hx] H]]]; eauto. }
  rewrite G. simpl. tauto.
Qed.

(** The second membership test of the loop never fails: every key is met
    once, so the loop keeps exactly the entries whose key was not found. *)
Lemma unmatched_fold all_found (l : list (Key * FeatureWeight Feature)) :
  NoDup (map fst l) ->
  forall items accounted,
  (forall key, In key (map fst l) -> ~ In key accounted) ->
  fold_left (unmatched_step all_found) l (items, accounted) =
  (items ++ map (fun kfw => keep (snd kfw))
                (filter (fun kfw => negb (PyDict.mem key_eqb all_found (fst kfw))) l),
   accounted ++ map fst
                (filter (fun kfw => negb (PyDict.mem key_eqb all_found (fst kfw))) l)).
Proof.
  induction l as [|[key fw] l IH]; simpl; intros Hnd items accounted Hacc.
  - now rewrite !app_nil_r.
  - inversion Hnd as [|? ? Hnotin Hnd']; subst.
    assert (E : existsb (key_eqb key) accounted = false).
    { destruct (existsb (key_eqb key) accounted) eqn:E; [|reflexivity].
      apply existsb_exists in E. destruct E as [k' [Hin Hk]].
      apply key_eqb_eq in Hk. subst k'. exfalso. apply (Hacc key); auto. }
    rewrite E. simpl. rewrite andb_true_r.
    destruct (PyDict.mem key_eqb all_found key); simpl.
    + apply IH; [exact Hnd'|]. intros k Hk. apply Hacc. now right.
    + rewrite IH; [now rewrite <- !app_assoc | exact Hnd' |].
      intros k Hk Hin. apply in_app_iff in Hin. destruct Hin as [Hin|[<-|[]]].
      * apply (Hacc k); auto.
      * contradiction.
Qed.

Lemma unmatched_eq fw nff :
  unmatched fw nff =
  (map (fun kfw => keep (snd kfw))
       (filter (fun kfw => negb (PyDict.mem key_eqb (all_found_features nff) (fst kfw)))
               (keyed_entries fw)),
   map fst
       (filter (fun kfw => negb (PyDict.mem key_eqb (all_found_features nff) (fst kfw)))
               (keyed_entries fw))).
Proof.
  unfold unmatched. rewrite unmatched_fold.
  - reflexivity.
  - apply NoDup_keyed_entries.
  - intros key _ [].
Qed.

Lemma summary_fold nff items :
  fold_left summary_step nff items =
  items ++ map (fun nf => summary (fst nf) (snd nf))
               (filter (fun nf => PyDict.nonempty (snd nf)) nff).
Proof.
  revert items. induction nff as [|[vec_name ff] nff IH]; simpl; intros items.
  - now rewrite app_nil_r.
  - rewrite IH. destruct (PyDict.nonempty ff); simpl.
    + now rewrite <- app_assoc.
    + reflexivity.
Qed.

Lemma other_items_appended_eq fw nff :
  other_items_appended fw nff =
  fst (unmatched fw nff) ++
  map (fun nf => summary (fst nf) (snd nf))
      (filter (fun nf => PyDict.nonempty (snd nf)) nff).
Proof. unfold other_items_appended. apply summary_fold. Qed.

(** ** The sort by descending absolute weight *)

Lemma Qlt_bool_iff (a b : Q) : Qlt_bool a b = true <-> (a < b)%Q.
Proof.
  unfold Qlt_bool. rewrite negb_true_iff. split.
  - intros H. apply Qnot_le_lt. intros Hle.
    apply Qle_bool_iff in Hle. congruence.
  - intros H. destruct (Qle_bool b a) eqn:E; [|reflexivity].
    apply Qle_bool_iff in E. exfalso. exact (Qlt_not_le _ _ H E).
Qed.

Lemma Qlt_bool_false_iff (a b : Q) : Qlt_bool a b = false <-> (b <= a)%Q.
Proof.
  unfold Qlt_bool. rewrite negb_false_iff. apply Qle_bool_iff.
Qed.

Section Sort.
Context {F : Type}.
Implicit Types (x y : FeatureWeight F) (l : list (FeatureWeight F)).

Lemma insert_abs_desc_perm x l : Permutation (insert_abs_desc x l) (x :: l).
Proof.
  induction l as [|y l IH]; simpl.
  - reflexivity.
  - destruct (Qlt_bool (Qabs (weight x)) (Qabs (weight y))).
    + rewrite IH. apply perm_swap.
    + reflexivity.
Qed.

Lemma sort_abs_desc_perm l : Permutation (sort_abs_desc l) l.
Proof.
  induction l as [|x l IH]; simpl.
  - reflexivity.
  - rewrite insert_abs_desc_perm. now constructor.
Qed.

Lemma insert_abs_desc_sorted x l :
  StronglySorted abs_ge l -> StronglySorted abs_ge (insert_abs_desc x l).
Proof.
  induction l as [|y l IH]; simpl; intros H.
  - repeat constructor.
  - inversion H as [|? ? Hs Hall]; subst.
    destruct (Qlt_bool (Qabs (weight x)) (Qabs (weight y))) eqn:E.
    + apply Qlt_bool_iff in E. constructor; [now apply IH|].
      apply (Permutation_Forall (Permutation_sym (insert_abs_desc_perm x l))).
      constructor; [now apply Qlt_le_weak | exact Hall].
    + apply Qlt_bool_false_iff in E. constructor; [exact H|].
      constructor; [exact E|].
      apply (Forall_impl (P := abs_ge y)); [|exact Hall].
      intros z Hz. unfold abs_ge in *. now apply Qle_trans with (Qabs (weight y)).
Qed.

Lemma sort_abs_desc_sorted l : StronglySorted abs_ge (sort_abs_desc l).
Proof.
  induction l as [|x l IH]; simpl.
  - constructor.
  - now apply insert_abs_desc_sorted.
Qed.

Lemma insert_abs_desc_stable m x l :
  filter (same_abs m) (insert_abs_desc x l) = filter (same_abs m) (x :: l).
Proof.
  induction l as [|y l IH]; simpl.
  - reflexivity.
  - destruct (Qlt_bool (Qabs (weight x)) (Qabs (weight y))) eqn:E.
    + simpl. rewrite IH. simpl.
      destruct (same_abs m x) eqn:Ex, (same_abs m y) eqn:Ey; try reflexivity.
      exfalso. apply Qlt_bool_iff in E. unfold same_abs in Ex, Ey.
      apply Qeq_bool_iff in Ex, Ey. rewrite Ex, Ey in E.
      exact (Qlt_irrefl _ E).
    + reflexivity.
Qed.

(** Entries of equal absolute weight keep their relative order. *)
Lemma sort_abs_desc_stable m l :
  filter (same_abs m) (sort_abs_desc l) = filter (same_abs m) l.
Proof.
  induction l as [|x l IH]; simpl.
  - reflexivity.
  - rewrite insert_abs_desc_stable. simpl. now rewrite IH.
Qed.

Lemma filter_comm (p q : FeatureWeight F -> bool) l :
  filter p (filter q l) = filter q (filter p l).
Proof.
  induction l as [|x l IH]; simpl.
  - reflexivity.
  - destruct (p x) eqn:Ep, (q x) eqn:Eq; simpl;
      rewrite ?Ep, ?Eq, IH; reflexivity.
Qed.

Lemma filter_subseq (p : FeatureWeight F -> bool) l : subseq (filter p l) l.
Proof.
  induction l as [|x l IH]; simpl.
  - constructor.
  - destruct (p x); now constructor.
Qed.

Lemma subseq_Forall (P : FeatureWeight F -> Prop) l1 l2 :
  subseq l1 l2 -> Forall P l2 -> Forall P l1.
Proof.
  intros Hs. induction Hs; intros HF.
  - constructor.
  - inversion HF; subst. auto.
  - inversion HF; subst. constructor; auto.
Qed.

Lemma subseq_sorted l1 l2 :
  subseq l1 l2 -> StronglySorted abs_ge l2 -> StronglySorted abs_ge l1.
Proof.
  intros Hs. induction Hs; intros HS.
  - constructor.
  - inversion HS; subst. auto.
  - inversion HS; subst. constructor; [auto|].
    eapply subseq_Forall; eassumption.
Qed.

Lemma filter_partition_perm (p : FeatureWeight F -> bool) l :
  Permutation (filter p l ++ filter (fun x => negb (p x)) l) l.
Proof.
  induction l as [|x l IH]; simpl.
  - reflexivity.
  - destruct (p x); simpl.
    + now constructor.
    + rewrite <- Permutation_middle. now constructor.
Qed.

End Sort.

(** ** The stable sort is determined by its specification *)

Section StableSortUnique.
Context {F : Type}.
Implicit Types (x y : FeatureWeight F) (l : list (FeatureWeight F)).

Lemma same_abs_self x : same_abs (Qabs (weight x)) x = true.
Proof. unfold same_abs. apply Qeq_bool_refl. Qed.

Lemma filter_same_abs_In m l x :
  In x (filter (same_abs m) l) -> In x l.
Proof. intros H. now apply filter_In in H. Qed.

Lemma sorted_head_max x l y :
  StronglySorted abs_ge (x :: l) -> In y (x :: l) ->
  (Qabs (weight y) <= Qabs (weight x))%Q.
Proof.
  intros Hs [<-|Hin].
  - apply Qle_refl.
  - inversion Hs as [|? ? _ Hall]; subst.
    rewrite Forall_forall in Hall. now apply Hall.
Qed.

(** Two lists sorted by descending absolute weight that agree on the order
    of the entries of every absolute weight are equal: a stable sort by this
    key has one possible result. *)
Lemma stable_sorted_unique l1 : forall l2,
  StronglySorted abs_ge l1 -> StronglySorted abs_ge l2 ->
  (forall m, filter (same_abs m) l1 = filter (same_abs m) l2) ->
  l1 = l2.
Proof.
  induction l1 as [|x l1 IH]; intros [|y l2] H1 H2 Hst.
  - reflexivity.
  - specialize (Hst (Qabs (weight y))). simpl in Hst.
    rewrite same_abs_self in Hst. discriminate.
  - specialize (Hst (Qabs (weight x))). simpl in Hst.
    rewrite same_abs_self in Hst. discriminate.
  - assert (Hxy : (Qabs (weight x) <= Qabs (weight y))%Q).
    { apply (sorted_head_max y l2 x H2).
      apply (filter_same_abs_In (Qabs (weight x))). rewrite <- Hst.
      simpl. rewrite same_abs_self. now left. }
    assert (Hyx : (Qabs (weight y) <= Qabs (weight x))%Q).
    { apply (sorted_head_max x l1 y H1).
      apply (filter_same_abs_In (Qabs (weight y))). rewrite Hst.
      simpl. rewrite same_abs_self. now left. }
    assert (Heq : (Qabs (weight y) == Qabs (weight x))%Q)
      by now apply Qle_antisym.
    assert (Hhead : x = y).
    { pose proof (Hst (Qabs (weight x))) as H. simpl in H.
      rewrite same_abs_self in H.
      replace (same_abs (Qabs (weight x)) y) with true in H.
      - now injection H.
      - symmetry. unfold same_abs. now apply Qeq_bool_iff. }
    subst y. f_equal. apply IH.
    + now inversion H1.
    + now inversion H2.
    + intros m. specialize (Hst m). simpl in Hst.
      destruct (same_abs m x); [now injection Hst | exact Hst].
Qed.

Corollary sort_abs_desc_unique l l' :
  StronglySorted abs_ge l' ->
  (forall m, filter (same_abs m) l' = filter (same_abs m) l) ->
  l' = sort_abs_desc l.
Proof.
  intros Hs Hst. apply stable_sorted_unique.
  - exact Hs.
  - apply sort_abs_desc_sorted.
  - intros m. now rewrite Hst, sort_abs_desc_stable.
Qed.

End StableSortUnique.

(** ** Statements about [_get_other] *)

Lemma NoDup_keys_filter {K V : Type} (keep_item : K * V -> bool)
    (d : list (K * V)) :
  NoDup (PyDict.keys d) -> NoDup (PyDict.keys (filter keep_item d)).
Proof.
  unfold PyDict.keys. intros Hd.
  induction d as [|[k v] d IH]; simpl in *; [constructor|].
  apply NoDup_cons_iff in Hd. destruct Hd as [Hk Hd].
  destruct (keep_item (k, v)); simpl; [|now apply IH].
  apply NoDup_cons_iff. split; [|now apply IH].
  intros Hin. apply Hk. apply in_map_iff in Hin.
  destruct Hin as [kv [Hkv Hin]]. apply filter_In in Hin.
  apply in_map_iff. exists kv. tauto.
Qed.

Lemma filter_originals_summaries
    (l : list (Key * FeatureWeight Feature)) (nff : list (string * FoundFeatures)) :
  filter (fun x => negb (is_summary x))
         (map (fun kfw => keep (snd kfw)) l ++
          map (fun nf => summary (fst nf) (snd nf)) nff) =
  map (fun kfw => keep (snd kfw)) l /\
  filter is_summary
         (map (fun kfw => keep (snd kfw)) l ++
          map (fun nf => summary (fst nf) (snd nf)) nff) =
  map (fun nf => summary (fst nf) (snd nf)) nff.
Proof.
  rewrite !filter_app. split.
  - replace (filter (fun x => negb (is_summary x))
               (map (fun nf => summary (fst nf) (snd nf)) nff)) with
      (@nil (FeatureWeight OtherFeature)).
    + rewrite app_nil_r. induction l as [|a l IH]; simpl; [reflexivity|].
      now rewrite IH.
    + induction nff as [|a nff IH]; simpl; [reflexivity | exact IH].
  - replace (filter is_summary (map (fun kfw => keep (snd kfw)) l)) with
      (@nil (FeatureWeight OtherFeature)).
    + simpl. induction nff as [|a nff IH]; simpl; [reflexivity|].
      now rewrite IH.
    + induction l as [|a l IH]; simpl; [reflexivity | exact IH].
Qed.

Lemma residual_perm_sorted fw nff :
  Permutation (pos (_get_other fw nff) ++ neg (_get_other fw nff))
              (other_items_sorted fw nff).
Proof.
  unfold _get_other, Qlt_bool. simpl.
  apply (filter_partition_perm (fun x => Qle_bool 0 (weight x))).
Qed.

(** C1 (completeness).  The matched keys are the keys of the union of all
    FoundFeatures maps; the loop over the original entries appends the entry
    of every key it accounts.  Every key of the original FeatureWeights
    occurs exactly once in the matched keys followed by the accounted keys;
    the accounted keys are original keys; the entries of the residual that
    are not summaries are exactly the appended originals, and the residual
    returned ([pos] and [neg] together) holds the appended entries, each
    once. *)
Theorem residual_completeness
    (fw : FeatureWeights Feature) (nff : list (string * FoundFeatures)) :
  let matched := PyDict.keys (all_found_features nff) in
  let originals := fst (unmatched fw nff) in
  let accounted := snd (unmatched fw nff) in
  let residual := _get_other fw nff in
  (forall key, In key matched <->
               exists nf, In nf nff /\ In key (PyDict.keys (snd nf))) /\
  map Some originals =
    map (fun key => option_map keep (entry_at fw key)) accounted /\
  (forall key x, entry_at fw key = Some x ->
                 count_occ key_eq_dec (matched ++ accounted) key = 1) /\
  (forall key, In key accounted -> entry_at fw key <> None) /\
  filter (fun x => negb (is_summary x)) (other_items_appended fw nff)
    = originals /\
  Permutation (pos residual ++ neg residual) (other_items_appended fw nff).
Proof.
  cbv zeta.
  assert (Hperm : Permutation
                    (pos (_get_other fw nff) ++ neg (_get_other fw nff))
                    (other_items_appended fw nff)).
  { rewrite residual_perm_sorted. apply sort_abs_desc_perm. }
  rewrite other_items_appended_eq, unmatched_eq in *. simpl.
  pose proof (NoDup_all_found_features nff) as Hnd.
  set (all := all_found_features nff) in *.
  set (sel := filter (fun kfw => negb (PyDict.mem key_eqb all (fst kfw)))
                     (keyed_entries fw)).
  assert (Hsel : forall k x, In (k, x) sel <->
                   entry_at fw k = Some x /\ PyDict.mem key_eqb all k = false).
  { intros k x. unfold sel. rewrite filter_In, In_keyed_entries. simpl.
    now rewrite negb_true_iff. }
  repeat split.
  - apply In_all_found_features.
  - apply In_all_found_features.
  - rewrite !map_map. apply map_ext_in. intros [k x] Hin. simpl.
    apply Hsel in Hin. destruct Hin as [-> _]. reflexivity.
  - intros key x Hx. rewrite count_occ_app.
    destruct (PyDict.mem key_eqb all key) eqn:E.
    + assert (Hin : In key (PyDict.keys all))
        by now apply (PyDictFacts.mem_In_keys key_eqb key_eqb_eq).
      rewrite (proj1 (NoDup_count_occ' key_eq_dec _) Hnd key Hin).
      rewrite (proj1 (count_occ_not_In key_eq_dec _ key)); [reflexivity|].
      intros H. apply in_map_iff in H. destruct H as [[k y] [Hk H]].
      simpl in Hk. subst k. apply Hsel in H. destruct H. congruence.
    + rewrite (proj1 (count_occ_not_In key_eq_dec _ key)).
      * apply NoDup_count_occ'.
        -- apply NoDup_keys_filter, NoDup_keyed_entries.
        -- apply in_map_iff. exists (key, x). split; [reflexivity|].
           apply Hsel. auto.
      * intros H. apply (PyDictFacts.mem_In_keys key_eqb key_eqb_eq) in H.
        congruence.
  - intros key H. apply in_map_iff in H. destruct H as [[k y] [Hk H]].
    simpl in Hk. subst k. apply Hsel in H. destruct H. congruence.
  - apply filter_originals_summaries.
  - exact Hperm.
Qed.

(** C2 (sort order).  The list appended by the accountant is the unmatched
    originals followed by the summaries of the sources; the list after the
    sort is a permutation of it, is sorted by descending absolute weight,
    and keeps the appended order among entries of equal absolute weight.
    The [pos] and [neg] lists returned inherit both properties. *)
Theorem other_items_sorted_stable
    (fw : FeatureWeights Feature) (nff : list (string * FoundFeatures)) :
  let appended := other_items_appended fw nff in
  let sorted := other_items_sorted fw nff in
  let residual := _get_other fw nff in
  appended = fst (unmatched fw nff) ++
             map (fun nf => summary (fst nf) (snd nf))
                 (filter (fun nf => PyDict.nonempty (snd nf)) nff) /\
  Permutation sorted appended /\
  StronglySorted abs_ge sorted /\
  (forall m, filter (same_abs m) sorted = filter (same_abs m) appended) /\
  StronglySorted abs_ge (pos residual) /\
  StronglySorted abs_ge (neg residual) /\
  (forall m, filter (same_abs m) (pos residual) =
             filter (same_abs m)
                    (filter (fun x => Qle_bool 0 (weight x)) appended)) /\
  (forall m, filter (same_abs m) (neg residual) =
             filter (same_abs m)
                    (filter (fun x => Qlt_bool (weight x) 0) appended)).
Proof.
  cbv zeta. unfold _get_other, other_items_sorted. simpl.
  pose proof (sort_abs_desc_sorted (other_items_appended fw nff)) as Hs.
  repeat split.
  - apply other_items_appended_eq.
  - apply sort_abs_desc_perm.
  - exact Hs.
  - intros m. apply sort_abs_desc_stable.
  - eapply subseq_sorted; [apply filter_subseq | exact Hs].
  - eapply subseq_sorted; [apply filter_subseq | exact Hs].
  - intros m.
    rewrite (filter_comm (same_abs m) _ (sort_abs_desc _)), sort_abs_desc_stable.
    apply filter_comm.
  - intros m.
    rewrite (filter_comm (same_abs m) _ (sort_abs_desc _)), sort_abs_desc_stable.
    apply filter_comm.
Qed.

Lemma string_append_assoc (a b c : string) :
  String.append (String.append a b) c = String.append a (String.append b c).
Proof.
  induction a as [|ch a IH]; simpl.
  - reflexivity.
  - now rewrite IH.
Qed.

Lemma summary_label_spec (vec_name : string) :
  summary_label vec_name =
  match vec_name with
  | EmptyString => "Highlighted in text (sum)"%string
  | _ => String.append vec_name ": Highlighted in text (sum)"%string
  end.
Proof.
  unfold summary_label. destruct vec_name as [|ch s].
  - reflexivity.
  - now rewrite string_append_assoc.
Qed.

Lemma Permutation_filter {A} (p : A -> bool) (l l' : list A) :
  Permutation l l' -> Permutation (filter p l) (filter p l').
Proof.
  intros H. induction H as [|x l l' H IH|x y l|l l' l'' H1 IH1 H2 IH2]; simpl.
  - constructor.
  - destruct (p x); [now constructor | exact IH].
  - destruct (p x), (p y); try reflexivity. apply perm_swap.
  - now transitivity (filter p l').
Qed.

(** C5 (summaries).  The accountant appends, after the unmatched originals,
    one entry per source whose FoundFeatures map is not empty, in the order of
    the sources: its label is "Highlighted in text (sum)" for the empty
    source name and "<name>: Highlighted in text (sum)" otherwise, its weight
    the sum of the values of the map.  These are the only summaries of the
    residual returned; there is none when every map is empty. *)
Theorem one_summary_per_matching_source
    (fw : FeatureWeights Feature) (nff : list (string * FoundFeatures)) :
  let expected :=
    map (fun nf : string * FoundFeatures =>
           mkFeatureWeight
             (FormattedFeatureName
                match fst nf with
                | EmptyString => "Highlighted in text (sum)"%string
                | _ => String.append (fst nf) ": Highlighted in text (sum)"%string
                end)
             (fold_left Qplus (map snd (snd nf)) 0%Q))
        (filter (fun nf => match snd nf with [] => false | _ :: _ => true end)
                nff) in
  let residual := _get_other fw nff in
  other_items_appended fw nff = fst (unmatched fw nff) ++ expected /\
  filter is_summary (other_items_appended fw nff) = expected /\
  Permutation (filter is_summary (pos residual ++ neg residual)) expected /\
  List.length expected =
    List.length (filter (fun nf => PyDict.nonempty (snd nf)) nff) /\
  ((forall nf, In nf nff -> snd nf = []) ->
   filter is_summary (pos residual ++ neg residual) = []).
Proof.
  cbv zeta.
  set (expected := map _ _).
  assert (Hexp : expected =
                 map (fun nf => summary (fst nf) (snd nf))
                     (filter (fun nf => PyDict.nonempty (snd nf)) nff)).
  { unfold expected. apply map_ext. intros [vec_name ff]. unfold summary.
    simpl. now rewrite summary_label_spec. }
  assert (Happ : other_items_appended fw nff = fst (unmatched fw nff) ++ expected).
  { rewrite Hexp. apply other_items_appended_eq. }
  assert (Hsum : filter is_summary (other_items_appended fw nff) = expected).
  { rewrite Happ, Hexp, unmatched_eq. simpl.
    apply filter_originals_summaries. }
  assert (Hperm : Permutation
                    (filter is_summary
                       (pos (_get_other fw nff) ++ neg (_get_other fw nff)))
                    expected).
  { rewrite <- Hsum. apply Permutation_filter.
    rewrite residual_perm_sorted. apply sort_abs_desc_perm. }
  repeat split.
  - exact Happ.
  - exact Hsum.
  - exact Hperm.
  - rewrite Hexp. apply length_map.
  - intros Hempty.
    assert (E : expected = []).
    { rewrite Hexp.
      replace (filter (fun nf => PyDict.nonempty (snd nf)) nff)
        with (@nil (string * FoundFeatures)); [reflexivity|].
      symmetry. clear - Hempty. induction nff as [|[n ff] nff IH]; simpl.
      - reflexivity.
      - assert (Hff : ff = []) by (apply (Hempty (n, ff)); now left).
        subst ff. simpl. apply IH. intros x Hx. apply Hempty. now right. }
    rewrite E in Hperm. now apply Permutation_nil.
Qed.

(** C6 (sign partition).  Every [pos] entry of the residual has a weight
    that is not negative and every [neg] entry a negative weight; both lists
    are the sorted [other_items] with entries left out, in the same order,
    and every sorted entry is in the list of its sign. *)
Theorem sign_partition
    (fw : FeatureWeights Feature) (nff : list (string * FoundFeatures)) :
  let residual := _get_other fw nff in
  let sorted := other_items_sorted fw nff in
  Forall (fun x => (0 <= weight x)%Q) (pos residual) /\
  Forall (fun x => (weight x < 0)%Q) (neg residual) /\
  subseq (pos residual) sorted /\
  subseq (neg residual) sorted /\
  (forall x, In x sorted ->
     ((0 <= weight x)%Q -> In x (pos residual)) /\
     ((weight x < 0)%Q -> In x (neg residual))).
Proof.
  cbv zeta. unfold _get_other. simpl. repeat split.
  - apply Forall_forall. intros x Hx. apply filter_In in Hx.
    now apply Qle_bool_iff.
  - apply Forall_forall. intros x Hx. apply filter_In in Hx.
    now apply Qlt_bool_iff.
  - apply filter_subseq.
  - apply filter_subseq.
  - intros Hw. apply filter_In. split; [assumption|]. now apply Qle_bool_iff.
  - intros Hw. apply filter_In. split; [assumption|]. now apply Qlt_bool_iff.
Qed.

(** C9 (truncation counts).  The residual carries the [pos_remaining] and
    [neg_remaining] of the original FeatureWeights, also as the [other] of
    whatever [get_weighted_spans] returns. *)
Theorem remaining_counts_copied
    (fw : FeatureWeights Feature) (nff : list (string * FoundFeatures)) :
  pos_remaining (_get_other fw nff) = pos_remaining fw /\
  neg_remaining (_get_other fw nff) = neg_remaining fw /\
  forall (VectorizerMixin : Type) (analyzer : VectorizerMixin -> string)
         build_span_analyzer doc vec,
    match get_weighted_spans VectorizerMixin analyzer build_span_analyzer
            doc vec fw with
    | Some ws =>
        pos_remaining (other ws) = pos_remaining fw /\
        neg_remaining (other ws) = neg_remaining fw
    | None => True
    end.
Proof.
  split; [reflexivity|]. split; [reflexivity|].
  intros VM an bsa doc vec.
  assert (Hsingle :
    match
      match _get_doc_weighted_spans VM an bsa doc vec fw None with
      | Some (found_features, doc_weighted_spans) =>
          Some (mkWeightedSpans [doc_weighted_spans]
                  (_get_other fw [(EmptyString, found_features)]))
      | None => None
      end
    with
    | Some ws =>
        pos_remaining (other ws) = pos_remaining fw /\
        neg_remaining (other ws) = neg_remaining fw
    | None => True
    end).
  { destruct (_get_doc_weighted_spans VM an bsa doc vec fw None) as [[ff d]|];
      simpl; auto. }
  destruct vec as [v|inner|tl|]; try exact Hsingle.
  unfold get_weighted_spans, _get_weighted_spans_from_union.
  destruct (fold_left (union_step VM an bsa doc fw) tl ([], [])) as [ds ns].
  destruct ds; simpl; auto.
Qed.

(** ** Strings and the name filter *)

Lemma prefix_append (p y : string) : String.prefix p (String.append p y) = true.
Proof.
  induction p as [|c p IH]; simpl.
  - now destruct y.
  - destruct (Ascii.ascii_dec c c); [exact IH | congruence].
Qed.

Lemma prefix_split (p x : string) :
  String.prefix p x = true ->
  x = String.append p (string_drop (String.length p) x).
Proof.
  revert x. induction p as [|c p IH]; intros x.
  - reflexivity.
  - destruct x as [|d x]; simpl; [discriminate|].
    destruct (Ascii.ascii_dec c d) as [->|]; [|discriminate].
    intros H. f_equal. now apply IH.
Qed.

Lemma string_drop_append (p y : string) :
  string_drop (String.length p) (String.append p y) = y.
Proof.
  induction p as [|c p IH]; simpl.
  - now destruct y.
  - exact IH.
Qed.

(** The filter of a source accepts exactly the identifiers that start with
    ["<name>__"], and gives what follows the prefix. *)
Lemma union_feature_fn_spec (vec_name x y : string) :
  union_feature_fn vec_name x = Some y <->
  x = String.append vec_name (String.append "__" y).
Proof.
  unfold union_feature_fn, vec_prefix. split.
  - destruct (String.prefix (String.append vec_name "__") x) eqn:E; [|discriminate].
    intros [= <-]. rewrite <- string_append_assoc. now apply prefix_split.
  - intros ->. rewrite <- string_append_assoc.
    rewrite prefix_append, string_drop_append. reflexivity.
Qed.

(** ** The scan of the analyzer's output *)

Lemma scan_step_spans tbl items st :
  fst (fold_left (scan_step tbl) items st) = fst st ++ emitted tbl items.
Proof.
  revert st. induction items as [|[sp f] items IH]; intros st; simpl.
  - now rewrite app_nil_r.
  - rewrite IH. unfold scan_step.
    destruct (PyDict.get String.eqb tbl f) as [[w k]|]; simpl.
    + now rewrite <- app_assoc.
    + reflexivity.
Qed.

Lemma scan_step_keys tbl items st k :
  In k (PyDict.keys (snd (fold_left (scan_step tbl) items st))) <->
  In k (PyDict.keys (snd st)) \/
  exists item w, In item items /\
                 PyDict.get String.eqb tbl (snd item) = Some (w, k).
Proof.
  revert st. induction items as [|[sp f] items IH]; intros st; simpl.
  - split; [tauto|]. intros [H|[item [w [[] _]]]]. exact H.
  - rewrite IH. unfold scan_step.
    destruct (PyDict.get String.eqb tbl f) as [[w k']|] eqn:E; simpl.
    + rewrite (PyDictFacts.In_keys_setitem key_eqb key_eqb_eq). split.
      * intros [[H| ->]|[item [w' [Hin H]]]].
        -- now left.
        -- right. exists (sp, f), w. auto.
        -- right. exists item, w'. auto.
      * intros [H|[item [w' [[<-|Hin] H]]]].
        -- left. now left.
        -- simpl in H. rewrite E in H. injection H as -> ->. left. now right.
        -- right. exists item, w'. auto.
    + split.
      * intros [H|[item [w' [Hin H]]]]; [now left|].
        right. exists item, w'. auto.
      * intros [H|[item [w' [[<-|Hin] H]]]]; [now left | |].
        -- simpl in H. congruence.
        -- right. exists item, w'. auto.
Qed.

Lemma scan_step_values tbl items st k w :
  PyDict.get key_eqb (snd (fold_left (scan_step tbl) items st)) k = Some w ->
  PyDict.get key_eqb (snd st) k = Some w \/
  exists item, In item items /\
               PyDict.get String.eqb tbl (snd item) = Some (w, k).
Proof.
  revert st. induction items as [|[sp f] items IH]; intros st; simpl.
  - now left.
  - intros H. apply IH in H. destruct H as [H|[item [Hin H]]].
    + unfold scan_step in H.
      destruct (PyDict.get String.eqb tbl f) as [[w' k']|] eqn:E; simpl in H.
      * rewrite (PyDictFacts.get_setitem key_eqb key_eqb_eq) in H.
        destruct (key_eqb k' k) eqn:Ek.
        -- apply key_eqb_eq in Ek. injection H as ->. subst k'.
           right. exists (sp, f). auto.
        -- now left.
      * now left.
    + right. exists item. auto.
Qed.

Lemma scan_spans tbl items : fst (scan tbl items) = emitted tbl items.
Proof. unfold scan. now rewrite scan_step_spans. Qed.

Lemma scan_found_keys tbl items k :
  In k (PyDict.keys (snd (scan tbl items))) <->
  exists item w, In item items /\
                 PyDict.get String.eqb tbl (snd item) = Some (w, k).
Proof.
  unfold scan. rewrite scan_step_keys. simpl. tauto.
Qed.

Lemma scan_found_values tbl items k w :
  PyDict.get key_eqb (snd (scan tbl items)) k = Some w ->
  exists item, In item items /\
               PyDict.get String.eqb tbl (snd item) = Some (w, k).
Proof.
  unfold scan. intros H. apply scan_step_values in H.
  destruct H as [H|H]; [discriminate | exact H].
Qed.

Lemma In_emitted tbl items f sp w :
  In (f, sp, w) (emitted tbl items) <->
  In (sp, f) items /\ exists k, PyDict.get String.eqb tbl f = Some (w, k).
Proof.
  unfold emitted. rewrite in_flat_map. split.
  - intros [[sp' f'] [Hin H]]. simpl in H.
    destruct (PyDict.get String.eqb tbl f') as [[w' k]|] eqn:E; [|contradiction].
    destruct H as [[= <- <- <-]|[]]. split; [exact Hin|]. now exists k.
  - intros [Hin [k H]]. exists (sp, f). split; [exact Hin|]. simpl.
    rewrite H. now left.
Qed.

(** ** The lookup table *)

Lemma In_table_items fw fn f w k :
  In (f, (w, k)) (table_items fw fn) <->
  exists x, entry_at fw k = Some x /\ weight x = w /\
            In f (_get_features (feature x) fn).
Proof.
  unfold table_items, entry_items. rewrite in_flat_map. split.
  - intros [[k' x] [Hin H]]. simpl in H. apply in_map_iff in H.
    destruct H as [f' [[= <- <- <-] Hf]]. exists x.
    apply In_keyed_entries in Hin. auto.
  - intros [x [Hx [<- Hf]]]. exists (k, x). split.
    + now apply In_keyed_entries.
    + simpl. apply in_map_iff. now exists f.
Qed.

(** Whatever the table holds comes from an original entry: the weight is the
    weight of the entry at the key, and the identifier one of its names. *)
Lemma feature_weights_dict_sound fw fn f w k :
  PyDict.get String.eqb (feature_weights_dict fw fn) f = Some (w, k) ->
  exists x, entry_at fw k = Some x /\ weight x = w /\
            In f (_get_features (feature x) fn).
Proof.
  unfold feature_weights_dict, PyDict.of_items. intros H.
  apply (PyDictFacts.get_update_In String.eqb String.eqb_eq) in H.
  destruct H as [H|H]; [|discriminate]. now apply In_table_items.
Qed.

Lemma get_update_all_same {K V} (eqb : K -> K -> bool)
    (eqb_eq : forall a b, eqb a b = true <-> a = b)
    (o d : list (K * V)) k v :
  In k (PyDict.keys o) ->
  (forall v', In (k, v') o -> v' = v) ->
  PyDict.get eqb (PyDict.update eqb d o) k = Some v.
Proof.
  unfold PyDict.update. revert d.
  induction o as [|[a w] o IH]; simpl; intros d Hin Hall.
  - contradiction.
  - destruct (PyDict.mem eqb o k) eqn:E.
    + apply IH.
      * now apply (PyDictFacts.mem_In_keys eqb eqb_eq).
      * intros v' Hv. apply Hall. now right.
    + assert (Hn : ~ In k (PyDict.keys o)).
      { intros Hk. apply (PyDictFacts.mem_In_keys eqb eqb_eq) in Hk. congruence. }
      destruct Hin as [->|Hin]; [|contradiction].
      pose proof (PyDictFacts.get_update_notin eqb eqb_eq (PyDict.setitem eqb d k w) o k Hn) as G.
      unfold PyDict.update in G. rewrite G.
      rewrite (PyDictFacts.get_setitem eqb eqb_eq).
      rewrite (proj2 (eqb_eq k k) eq_refl). f_equal. apply Hall. now left.
Qed.

(** The last entry that contributes an identifier is the one the table
    keeps for it. *)
Lemma feature_weights_dict_last fw fn l1 k x l2 f :
  keyed_entries fw = l1 ++ (k, x) :: l2 ->
  In f (_get_features (feature x) fn) ->
  (forall kfw, In kfw l2 -> ~ In f (_get_features (feature (snd kfw)) fn)) ->
  PyDict.get String.eqb (feature_weights_dict fw fn) f = Some (weight x, k).
Proof.
  intros Hsplit Hf Hlater.
  unfold feature_weights_dict, PyDict.of_items, table_items.
  rewrite Hsplit, flat_map_app. simpl.
  unfold PyDict.update. rewrite fold_left_app.
  apply (get_update_all_same String.eqb String.eqb_eq).
  - unfold PyDict.keys. rewrite map_app, in_app_iff. left.
    unfold entry_items. simpl. rewrite map_map. simpl.
    now rewrite map_id.
  - intros v' Hv. apply in_app_iff in Hv. destruct Hv as [Hv|Hv].
    + unfold entry_items in Hv. simpl in Hv. apply in_map_iff in Hv.
      now destruct Hv as [f' [[= _ <-] _]].
    + exfalso. apply in_flat_map in Hv. destruct Hv as [kfw [Hin Hv]].
      apply (Hlater kfw Hin). unfold entry_items in Hv.
      apply in_map_iff in Hv. now destruct Hv as [f' [[= ->] Hf']].
Qed.

Lemma In_get {K V} (eqb : K -> K -> bool)
    (eqb_eq : forall a b, eqb a b = true <-> a = b)
    (d : list (K * V)) k v :
  NoDup (PyDict.keys d) -> In (k, v) d -> PyDict.get eqb d k = Some v.
Proof.
  unfold PyDict.keys. induction d as [|[a w] d IH]; simpl; intros Hnd Hin.
  - contradiction.
  - inversion Hnd as [|? ? Hn Hd]; subst. destruct Hin as [[= -> ->]|Hin].
    + now rewrite (proj2 (eqb_eq k k) eq_refl).
    + destruct (eqb a k) eqn:E.
      * apply eqb_eq in E. subst a. exfalso. apply Hn.
        apply in_map_iff. now exists (k, v).
      * now apply IH.
Qed.

Lemma scan_found_NoDup tbl items : NoDup (PyDict.keys (snd (scan tbl items))).
Proof.
  unfold scan.
  assert (H : NoDup (PyDict.keys (snd (@nil (string * list Span * Q),
                                       @nil (Key * Q))))) by constructor.
  revert H. generalize (@nil (string * list Span * Q), @nil (Key * Q)).
  induction items as [|[sp f] items IH]; simpl; intros st H.
  - exact H.
  - apply IH. unfold scan_step.
    destruct (PyDict.get String.eqb tbl f) as [[w k]|]; simpl.
    + now apply (PyDictFacts.NoDup_keys_setitem key_eqb key_eqb_eq).
    + exact H.
Qed.

(** ** Alignment of one source *)

Section Alignment.
Context {VectorizerMixin : Type}.
Variable analyzer : VectorizerMixin -> string.
Variable build_span_analyzer :
  string -> VectorizerMixin ->
  option (string -> list (list Span * string)) * string.

Local Abbreviation align :=
  (_get_doc_weighted_spans VectorizerMixin analyzer build_span_analyzer).

Lemma _get_doc_weighted_spans_eq doc vec fw fn :
  align doc vec fw fn =
  match text_vectorizer vec with
  | None => None
  | Some v =>
      match fst (build_span_analyzer doc v) with
      | None => None
      | Some span_analyzer =>
          let preprocessed_doc := snd (build_span_analyzer doc v) in
          let tbl := feature_weights_dict fw fn in
          Some (snd (scan tbl (span_analyzer preprocessed_doc)),
                mkDocWeightedSpans preprocessed_doc
                  (emitted tbl (span_analyzer preprocessed_doc))
                  (String.prefix "char" (analyzer v)) None)
      end
  end.
Proof.
  assert (Htext : forall v,
    match build_span_analyzer doc v with
    | (Some sa, pd) =>
        let '(sps, ff) := scan (feature_weights_dict fw fn) (sa pd) in
        Some (ff, mkDocWeightedSpans pd sps (String.prefix "char" (analyzer v)) None)
    | (None, _) => None
    end =
    match fst (build_span_analyzer doc v) with
    | None => None
    | Some sa =>
        Some (snd (scan (feature_weights_dict fw fn) (sa (snd (build_span_analyzer doc v)))),
              mkDocWeightedSpans (snd (build_span_analyzer doc v))
                (emitted (feature_weights_dict fw fn) (sa (snd (build_span_analyzer doc v))))
                (String.prefix "char" (analyzer v)) None)
    end).
  { intros v. destruct (build_span_analyzer doc v) as [[sa|] pd]; simpl; [|reflexivity].
    rewrite <- scan_spans.
    now destruct (scan (feature_weights_dict fw fn) (sa pd)). }
  unfold _get_doc_weighted_spans.
  destruct vec as [v|[v|inner|tl|]|tl|]; simpl; try reflexivity; apply Htext.
Qed.

Lemma align_Some_inv doc vec fw fn found dws :
  align doc vec fw fn = Some (found, dws) ->
  exists v span_analyzer,
    text_vectorizer vec = Some v /\
    fst (build_span_analyzer doc v) = Some span_analyzer /\
    found = snd (scan (feature_weights_dict fw fn)
                      (span_analyzer (snd (build_span_analyzer doc v)))) /\
    dws = mkDocWeightedSpans (snd (build_span_analyzer doc v))
            (emitted (feature_weights_dict fw fn)
                     (span_analyzer (snd (build_span_analyzer doc v))))
            (String.prefix "char" (analyzer v)) None.
Proof.
  rewrite _get_doc_weighted_spans_eq.
  destruct (text_vectorizer vec) as [v|]; [|discriminate].
  destruct (fst (build_span_analyzer doc v)) as [sa|] eqn:E; [|discriminate].
  cbv zeta. intros [= <- <-]. exists v, sa. auto.
Qed.

(** C7 (empty inputs).  The alignment of a source returns [None] exactly
    when the vectorizer is not a text vectorizer or the span analyzer
    declines.  Otherwise, when the analyzer yields no pair (as on an empty
    document) or the FeatureWeights has no entry, it returns an empty
    FoundFeatures map and a DocWeightedSpans with no span. *)
Theorem empty_inputs_give_empty_spans doc vec fw fn :
  (align doc vec fw fn = None <->
   text_vectorizer vec = None \/
   exists v, text_vectorizer vec = Some v /\
             fst (build_span_analyzer doc v) = None) /\
  (forall v span_analyzer,
     text_vectorizer vec = Some v ->
     fst (build_span_analyzer doc v) = Some span_analyzer ->
     span_analyzer (snd (build_span_analyzer doc v)) = [] \/
     (pos fw = [] /\ neg fw = []) ->
     align doc vec fw fn =
     Some ([], mkDocWeightedSpans (snd (build_span_analyzer doc v)) []
                 (String.prefix "char" (analyzer v)) None)).
Proof.
  rewrite _get_doc_weighted_spans_eq. split.
  - destruct (text_vectorizer vec) as [v|]; [|tauto].
    destruct (fst (build_span_analyzer doc v)) as [sa|] eqn:E; cbv zeta.
    + split; [discriminate|]. intros [H|[v' [[= <-] H]]]; congruence.
    + split; [|reflexivity]. intros _. right. now exists v.
  - intros v sa -> -> Hempty. cbv zeta. destruct Hempty as [->|[Hp Hn]].
    + reflexivity.
    + assert (Htbl : feature_weights_dict fw fn = []).
      { unfold feature_weights_dict, table_items, keyed_entries. simpl.
        now rewrite Hp, Hn. }
      rewrite Htbl.
      assert (Hscan : forall items st,
                 fold_left (scan_step []) items st = st).
      { induction items as [|[sp f] items IH]; intros st; simpl; [reflexivity|].
        apply IH. }
      assert (Hem : forall items, emitted [] items = []).
      { induction items as [|[sp f] items IH]; simpl; [reflexivity | exact IH]. }
      unfold scan. now rewrite Hscan, Hem.
Qed.

(** C10 (weights are not altered).  Every pair recorded in the
    FoundFeatures map of an alignment has for value the weight of the
    original entry at its key, and every span emitted carries the weight the
    lookup table stores under its identifier, which is the weight of the
    original entry the table points to. *)
Theorem matching_keeps_weights doc vec fw fn found dws :
  align doc vec fw fn = Some (found, dws) ->
  (forall key w, In (key, w) found ->
     exists x, entry_at fw key = Some x /\ weight x = w) /\
  (forall f sp w, In (f, sp, w) (spans dws) ->
     exists key x,
       PyDict.get String.eqb (feature_weights_dict fw fn) f = Some (w, key) /\
       entry_at fw key = Some x /\ weight x = w).
Proof.
  intros H. apply align_Some_inv in H.
  destruct H as [v [sa [_ [_ [-> ->]]]]]. split.
  - intros key w Hin.
    apply (In_get key_eqb key_eqb_eq) in Hin; [|apply scan_found_NoDup].
    apply scan_found_values in Hin. destruct Hin as [item [_ Hget]].
    apply feature_weights_dict_sound in Hget.
    destruct Hget as [x [Hx [Hw _]]]. now exists x.
  - intros f sp w Hin. simpl in Hin. apply In_emitted in Hin.
    destruct Hin as [_ [key Hget]]. pose proof Hget as Hs.
    apply feature_weights_dict_sound in Hs.
    destruct Hs as [x [Hx [Hw _]]]. now exists key, x.
Qed.

End Alignment.

(** ** Unions of sources *)

Section Union.
Context {VectorizerMixin : Type}.
Variable analyzer : VectorizerMixin -> string.
Variable build_span_analyzer :
  string -> VectorizerMixin ->
  option (string -> list (list Span * string)) * string.

Local Abbreviation align :=
  (_get_doc_weighted_spans VectorizerMixin analyzer build_span_analyzer).
Local Abbreviation align_union :=
  (_get_weighted_spans_from_union VectorizerMixin analyzer build_span_analyzer).
Local Abbreviation results := (union_results analyzer build_span_analyzer).

Lemma union_fold doc fw tl st :
  fold_left (union_step VectorizerMixin analyzer build_span_analyzer doc fw) tl st =
  (fst st ++ map (fun r => set_vec_name (snd (snd r)) (fst r)) (results doc tl fw),
   snd st ++ map (fun r => (fst r, fst (snd r))) (results doc tl fw)).
Proof.
  revert st. induction tl as [|[vec_name vec] tl IH]; intros [ds ns]; simpl.
  - now rewrite !app_nil_r.
  - rewrite IH.
    destruct (align doc vec fw (Some (union_feature_fn vec_name))) as [[ff d]|];
      simpl.
    + now rewrite <- !app_assoc.
    + reflexivity.
Qed.

Lemma union_results_nil doc tl fw :
  results doc tl fw = [] <->
  forall vec_name vec, In (vec_name, vec) tl ->
    align doc vec fw (Some (union_feature_fn vec_name)) = None.
Proof.
  unfold union_results. induction tl as [|[n v] tl IH]; simpl.
  - split; [intros _ ? ? [] | reflexivity].
  - destruct (align doc v fw (Some (union_feature_fn n))) as [r|] eqn:E; simpl.
    + split; [discriminate|]. intros H.
      specialize (H n v (or_introl eq_refl)). congruence.
    + rewrite IH. split.
      * intros H n' v' [[= <- <-]|Hin]; [exact E | now apply H].
      * intros H n' v' Hin. apply H. now right.
Qed.

(** C4 (unions).  The combiner returns [None] exactly when the alignment of
    every source returns [None].  What it returns otherwise has a [docs]
    list that is not empty: one DocWeightedSpans per source whose alignment
    did not return [None], tagged with the name of the source, in the order
    of the sources; the residual is computed from the FoundFeatures maps of
    these sources. *)
Theorem union_none_iff_every_source_none doc tl fw :
  (align_union doc tl fw = None <->
   forall vec_name vec, In (vec_name, vec) tl ->
     align doc vec fw (Some (union_feature_fn vec_name)) = None) /\
  match align_union doc tl fw with
  | None => results doc tl fw = []
  | Some ws =>
      docs ws <> [] /\
      docs ws = map (fun r => set_vec_name (snd (snd r)) (fst r))
                    (results doc tl fw) /\
      other ws = _get_other fw (map (fun r => (fst r, fst (snd r)))
                                    (results doc tl fw))
  end.
Proof.
  rewrite <- union_results_nil.
  unfold _get_weighted_spans_from_union. rewrite union_fold. simpl.
  destruct (results doc tl fw) as [|r rs]; simpl.
  - split; [tauto | reflexivity].
  - split; [split; discriminate|]. repeat split. discriminate.
Qed.

End Union.

(** ** Name filters and composite features *)

Lemma filter_truthy_nil (xs : list (option string)) :
  (forall x, In x xs -> x = None \/ x = Some EmptyString) ->
  filter_truthy xs = [].
Proof.
  induction xs as [|x xs IH]; simpl; intros H.
  - reflexivity.
  - destruct (H x (or_introl eq_refl)) as [-> | ->];
      apply IH; intros y Hy; apply H; now right.
Qed.

Section Matching.
Context {VectorizerMixin : Type}.
Variable analyzer : VectorizerMixin -> string.
Variable build_span_analyzer :
  string -> VectorizerMixin ->
  option (string -> list (list Span * string)) * string.

Local Abbreviation align :=
  (_get_doc_weighted_spans VectorizerMixin analyzer build_span_analyzer).

(** An entry none of whose names passes the filter has no entry in the
    table and is not found by the alignment. *)
Lemma no_names_not_found doc vec fw fn key x :
  entry_at fw key = Some x ->
  _get_features (feature x) fn = [] ->
  (forall f w,
     PyDict.get String.eqb (feature_weights_dict fw fn) f <> Some (w, key)) /\
  (forall found dws,
     align doc vec fw fn = Some (found, dws) ->
     ~ In key (PyDict.keys found) /\ PyDict.get key_eqb found key = None).
Proof.
  intros Hx Hnil.
  assert (Htbl : forall f w,
             PyDict.get String.eqb (feature_weights_dict fw fn) f <> Some (w, key)).
  { intros f w H. apply feature_weights_dict_sound in H.
    destruct H as [x' [Hx' [_ Hf]]]. rewrite Hx in Hx'. injection Hx' as <-.
    rewrite Hnil in Hf. contradiction. }
  split; [exact Htbl|]. intros found dws H. apply align_Some_inv in H.
  destruct H as [v [sa [_ [_ [-> _]]]]].
  assert (Hn : ~ In key (PyDict.keys
                           (snd (scan (feature_weights_dict fw fn)
                                      (sa (snd (build_span_analyzer doc v))))))).
  { intros H. apply scan_found_keys in H. destruct H as [item [w [_ H]]].
    exact (Htbl _ _ H). }
  split; [exact Hn|]. now apply (PyDictFacts.get_None_keys key_eqb key_eqb_eq).
Qed.

(** C3 (union disjointness).  The filter of a source accepts exactly the
    identifiers that start with its name followed by "__" and gives the
    rest.  With sources "a" and "b", an entry whose feature is "a__" followed
    by [tok] contributes [tok] to the table of source "a" and nothing to the
    table of source "b": no identifier of that table points to its key, and
    the alignment of source "b" does not find it, whatever "b" discovers. *)
Theorem union_sources_disjoint doc vec_b fw key x tok found dws :
  entry_at fw key = Some x ->
  feature x = Atomic (String.append "a__" tok) ->
  align doc vec_b fw (Some (union_feature_fn "b")) = Some (found, dws) ->
  (forall vec_name id stripped,
     union_feature_fn vec_name id = Some stripped <->
     id = String.append vec_name (String.append "__" stripped)) /\
  _get_features (feature x) (Some (union_feature_fn "a")) =
    filter_truthy [Some tok] /\
  _get_features (feature x) (Some (union_feature_fn "b")) = [] /\
  (forall f w,
     PyDict.get String.eqb
       (feature_weights_dict fw (Some (union_feature_fn "b"))) f
     <> Some (w, key)) /\
  ~ In key (PyDict.keys found) /\
  PyDict.get key_eqb found key = None.
Proof.
  intros Hx Hf Halign.
  assert (Hb : _get_features (feature x) (Some (union_feature_fn "b")) = []).
  { rewrite Hf. reflexivity. }
  destruct (no_names_not_found doc vec_b fw _ key x Hx Hb) as [Htbl Hfound].
  destruct (Hfound found dws Halign) as [Hn Hg].
  repeat split.
  - apply union_feature_fn_spec.
  - apply union_feature_fn_spec.
  - assert (Ha : union_feature_fn "a" (String.append "a__" tok) = Some tok)
      by now apply union_feature_fn_spec.
    rewrite Hf.
    change (filter_truthy [union_feature_fn "a" (String.append "a__" tok)]
            = filter_truthy [Some tok]).
    now rewrite Ha.
  - exact Hb.
  - exact Htbl.
  - exact Hn.
  - exact Hg.
Qed.

(** C8, as amended (composite features).  The names of a composite feature
    are the names of its parts, passed through the filter when there is
    one.  A name of the composite that no later entry (in the order [pos]
    then [neg], by index) contributes is kept by the table with the weight
    and the key of the composite; when the analyzer discovers it, a span
    with that weight is emitted and the key is recorded with that weight.
    A composite all of whose parts the filter rejects has no name: no entry
    of the table points to its key, the alignment does not find it, and when
    no source found its key the entry is among the unmatched originals of
    the residual. *)
Theorem composite_matches_unless_overwritten
    doc vec fw fn l1 key x l2 parts :
  keyed_entries fw = l1 ++ (key, x) :: l2 ->
  feature x = Composite parts ->
  _get_features (feature x) None = map name parts /\
  (forall fn',
     _get_features (feature x) (Some fn') =
       filter_truthy (map fn' (map name parts)) /\
     ((forall p, In p parts ->
         fn' (name p) = None \/ fn' (name p) = Some EmptyString) ->
      _get_features (feature x) (Some fn') = [])) /\
  (forall f,
     In f (_get_features (feature x) fn) ->
     (forall kfw, In kfw l2 ->
        ~ In f (_get_features (feature (snd kfw)) fn)) ->
     PyDict.get String.eqb (feature_weights_dict fw fn) f
       = Some (weight x, key) /\
     forall found dws sp,
       align doc vec fw fn = Some (found, dws) ->
       In (sp, f) (analyzed build_span_analyzer doc vec) ->
       In (f, sp, weight x) (spans dws) /\
       PyDict.get key_eqb found key = Some (weight x)) /\
  (_get_features (feature x) fn = [] ->
   (forall f w,
      PyDict.get String.eqb (feature_weights_dict fw fn) f <> Some (w, key)) /\
   (forall found dws,
      align doc vec fw fn = Some (found, dws) ->
      PyDict.get key_eqb found key = None) /\
   (forall nff,
      (forall nf, In nf nff -> ~ In key (PyDict.keys (snd nf))) ->
      In (keep x) (fst (unmatched fw nff)) /\
      In (keep x) (pos (_get_other fw nff) ++ neg (_get_other fw nff)))).
Proof.
  intros Hsplit Hcomp.
  assert (Hx : entry_at fw key = Some x).
  { apply In_keyed_entries. rewrite Hsplit. apply in_elt. }
  split; [now rewrite Hcomp|]. split; [|split].
  - intros fn'. rewrite Hcomp. split; [reflexivity|]. intros Hrej.
    unfold _get_features. apply filter_truthy_nil. intros y Hy.
    apply in_map_iff in Hy. destruct Hy as [n [<- Hn]].
    apply in_map_iff in Hn. destruct Hn as [p [<- Hp]]. now apply Hrej.
  - intros f Hf Hlater.
    pose proof (feature_weights_dict_last fw fn l1 key x l2 f Hsplit Hf Hlater)
      as Htbl.
    split; [exact Htbl|]. intros found dws sp Halign Hsp.
    apply align_Some_inv in Halign.
    destruct Halign as [v [sa [Hv [Hsa [-> ->]]]]].
    unfold analyzed in Hsp. rewrite Hv, Hsa in Hsp. simpl. split.
    + apply In_emitted. split; [exact Hsp|]. now exists key.
    + set (found := snd (scan _ _)).
      assert (Hin : In key (PyDict.keys found)).
      { apply scan_found_keys. exists (sp, f), (weight x). auto. }
      destruct (PyDict.get key_eqb found key) as [w|] eqn:E.
      * apply scan_found_values in E. destruct E as [item [_ E]].
        apply feature_weights_dict_sound in E.
        destruct E as [x' [Hx' [Hw _]]]. rewrite Hx in Hx'.
        injection Hx' as <-. now rewrite Hw.
      * apply (PyDictFacts.get_None_keys key_eqb key_eqb_eq) in E.
        contradiction.
  - intros Hnil.
    destruct (no_names_not_found doc vec fw fn key x Hx Hnil) as [Htbl Hfound].
    split; [exact Htbl|]. split.
    + intros found dws H. now apply Hfound in H.
    + intros nff Hnone.
      assert (Hun : In (keep x) (fst (unmatched fw nff))).
      { rewrite unmatched_eq. simpl.
        apply (in_map (fun kfw => keep (snd kfw)) _ (key, x)).
        apply filter_In. split; [now apply In_keyed_entries|]. simpl.
        apply negb_true_iff.
        destruct (PyDict.mem key_eqb (all_found_features nff) key) eqn:E;
          [|reflexivity].
        apply (PyDictFacts.mem_In_keys key_eqb key_eqb_eq) in E.
        apply In_all_found_features in E. destruct E as [nf [Hnf Hk]].
        exfalso. exact (Hnone nf Hnf Hk). }
      split; [exact Hun|].
      apply (Permutation_in (l := other_items_sorted fw nff)).
      * symmetry. apply residual_perm_sorted.
      * apply (Permutation_in (l := other_items_appended fw nff)).
        -- symmetry. apply sort_abs_desc_perm.
        -- rewrite other_items_appended_eq. apply in_app_iff. now left.
Qed.

End Matching.

(** ** The claims on concrete inputs *)

Module Examples.
Import Demo.
Local Open Scope string_scope.

Local Abbreviation align :=
  (_get_doc_weighted_spans vectorizer analyzer build_span_analyzer).
Local Abbreviation explain :=
  (get_weighted_spans vectorizer analyzer build_span_analyzer).

(** Scenario 1 of the specification. *)
Example scenario_good_movie :
  explain "good movie" words good_bad =
  Some (mkWeightedSpans
          [mkDocWeightedSpans "good movie" [("good", [(0, 4)], (2 # 1)%Q)]
             false None]
          (mkFeatureWeights
             [mkFeatureWeight (FormattedFeatureName "Highlighted in text (sum)")
                              (0 + (2 # 1))%Q]
             [mkFeatureWeight (Kept (Atomic "bad")) (- 1 # 1)%Q] 0 0)).
Proof. vm_compute. reflexivity. Qed.

(** Scenario 2: no feature weight at all. *)
Example scenario_no_weights :
  explain "good movie" words (mkFeatureWeights [] [] 0 0) =
  Some (mkWeightedSpans [mkDocWeightedSpans "good movie" [] false None]
                        (mkFeatureWeights [] [] 0 0)).
Proof. reflexivity. Qed.

(** Scenario 3: two sources that both discover "tok". *)
Example scenario_union :
  explain "tok" (FeatureUnion [("a", tok_source); ("b", tok_source)])
          union_weights =
  Some (mkWeightedSpans
          [mkDocWeightedSpans "tok" [("tok", [(0, 3)], (1 # 1)%Q)] false (Some "a");
           mkDocWeightedSpans "tok" [("tok", [(0, 3)], (3 # 1)%Q)] false (Some "b")]
          (mkFeatureWeights
             [mkFeatureWeight (FormattedFeatureName "b: Highlighted in text (sum)")
                              (0 + (3 # 1))%Q;
              mkFeatureWeight (FormattedFeatureName "a: Highlighted in text (sum)")
                              (0 + (1 # 1))%Q]
             [] 0 0)).
Proof. vm_compute. reflexivity. Qed.

(** Scenario 4: nothing can be analyzed. *)
Example scenario_declined :
  explain "tok" declining good_bad = None /\
  explain "tok" OtherEstimator good_bad = None /\
  explain "tok" (FeatureUnion [("a", declining); ("b", OtherEstimator)])
          good_bad = None.
Proof. repeat split. Qed.

(** C8, as stated, fails: a part of a composite entry names the identifier
    the analyzer discovers, a later entry names it too, and the table keeps
    the later one; the composite is not found and stays in the residual. *)
Lemma composite_part_overwritten :
  ~ (forall (fw : FeatureWeights Feature) fn key x parts f,
       entry_at fw key = Some x ->
       feature x = Composite parts ->
       In f (_get_features (Composite parts) fn) ->
       PyDict.get String.eqb (feature_weights_dict fw fn) f
         = Some (weight x, key)) /\
  entry_at shadowed (gpos, 0) = Some (Demo.fw (Composite [mkPart "good"]) (1 # 1)%Q) /\
  In ([(0, 4)], "good") (analyzed build_span_analyzer "good movie" words) /\
  align "good movie" words shadowed None =
    Some ([((gpos, 1), (2 # 1)%Q)],
          mkDocWeightedSpans "good movie" [("good", [(0, 4)], (2 # 1)%Q)]
            false None) /\
  pos (_get_other shadowed [("", [((gpos, 1), (2 # 1)%Q)])]) =
    [mkFeatureWeight (FormattedFeatureName "Highlighted in text (sum)")
                     (0 + (2 # 1))%Q;
     mkFeatureWeight (Kept (Composite [mkPart "good"])) (1 # 1)%Q].
Proof.
  split; [|repeat split; simpl; auto].
  intros H.
  specialize (H shadowed None (gpos, 0)
                (Demo.fw (Composite [mkPart "good"]) (1 # 1)%Q)
                [mkPart "good"] "good" eq_refl eq_refl (or_introl eq_refl)).
  vm_compute in H. discriminate H.
Qed.

Lemma composite_matches_witness :
  keyed_entries composite_weights =
    ([] ++ ((gpos, 0), Demo.fw (Composite [mkPart "nice"; mkPart "movie"]) (1 # 2)%Q)
        :: [((gneg, 0), Demo.fw (Atomic "bad") (- 1 # 1)%Q)])%list /\
  PyDict.get String.eqb (feature_weights_dict composite_weights None) "movie"
    = Some ((1 # 2)%Q, (gpos, 0)) /\
  In ("movie", [(5, 10)], (1 # 2)%Q)
     (spans (mkDocWeightedSpans "good movie"
               [("movie", [(5, 10)], (1 # 2)%Q)] false None)) /\
  PyDict.get key_eqb [((gpos, 0), (1 # 2)%Q)] (gpos, 0) = Some (1 # 2)%Q.
Proof.
  split; [reflexivity|].
  destruct (composite_matches_unless_overwritten
              analyzer build_span_analyzer "good movie" words
              composite_weights None []
              (gpos, 0) (Demo.fw (Composite [mkPart "nice"; mkPart "movie"]) (1 # 2)%Q)
              [((gneg, 0), Demo.fw (Atomic "bad") (- 1 # 1)%Q)]
              [mkPart "nice"; mkPart "movie"] eq_refl eq_refl)
    as [_ [_ [H _]]].
  destruct (H "movie") as [Htbl Hfound].
  - simpl. tauto.
  - intros kfw [<-|[]]. simpl. intros [E|[]]. discriminate E.
  - split; [exact Htbl|].
    apply (Hfound [((gpos, 0), (1 # 2)%Q)]
             (mkDocWeightedSpans "good movie"
                [("movie", [(5, 10)], (1 # 2)%Q)] false None)
             [(5, 10)]).
    + reflexivity.
    + simpl. tauto.
Defined.

Lemma union_sources_disjoint_witness :
  entry_at union_weights (gpos, 0) = Some (Demo.fw (Atomic "a__tok") (1 # 1)%Q) /\
  align "tok" tok_source union_weights (Some (union_feature_fn "b")) =
    Some ([((gpos, 1), (3 # 1)%Q)],
          mkDocWeightedSpans "tok" [("tok", [(0, 3)], (3 # 1)%Q)] false None) /\
  _get_features (Atomic "a__tok") (Some (union_feature_fn "a")) = ["tok"] /\
  _get_features (Atomic "a__tok") (Some (union_feature_fn "b")) = [] /\
  PyDict.get key_eqb [((gpos, 1), (3 # 1)%Q)] (gpos, 0) = None.
Proof.
  split; [reflexivity|]. split; [reflexivity|].
  destruct (union_sources_disjoint
              analyzer build_span_analyzer "tok" tok_source union_weights
              (gpos, 0) (Demo.fw (Atomic "a__tok") (1 # 1)%Q) "tok"
              [((gpos, 1), (3 # 1)%Q)]
              (mkDocWeightedSpans "tok" [("tok", [(0, 3)], (3 # 1)%Q)] false None)
              eq_refl eq_refl eq_refl)
    as [_ [Ha [Hb [_ [_ Hg]]]]].
  split; [exact Ha|]. split; [exact Hb | exact Hg].
Defined.

Lemma matching_keeps_weights_witness :
  align "good movie" words good_bad None =
    Some ([((gpos, 0), (2 # 1)%Q)],
          mkDocWeightedSpans "good movie" [("good", [(0, 4)], (2 # 1)%Q)]
            false None) /\
  (exists x, entry_at good_bad (gpos, 0) = Some x /\ weight x = (2 # 1)%Q) /\
  (exists key x,
     PyDict.get String.eqb (feature_weights_dict good_bad None) "good"
       = Some ((2 # 1)%Q, key) /\
     entry_at good_bad key = Some x /\ weight x = (2 # 1)%Q).
Proof.
  split; [reflexivity|].
  destruct (matching_keeps_weights
              analyzer build_span_analyzer "good movie" words good_bad None
              [((gpos, 0), (2 # 1)%Q)]
              (mkDocWeightedSpans "good movie" [("good", [(0, 4)], (2 # 1)%Q)]
                 false None)
              eq_refl) as [Hfound Hspans].
  split.
  - apply Hfound. now left.
  - apply (Hspans "good" [(0, 4)]). now left.
Defined.

Lemma union_none_witness :
  (forall vec_name vec,
     In (vec_name, vec) [("a", declining); ("b", OtherEstimator)] ->
     align "tok" vec good_bad (Some (union_feature_fn vec_name)) = None) /\
  _get_weighted_spans_from_union vectorizer analyzer build_span_analyzer
    "tok" [("a", declining); ("b", OtherEstimator)] good_bad = None.
Proof.
  assert (H : forall vec_name vec,
             In (vec_name, vec) [("a", declining); ("b", OtherEstimator)] ->
             align "tok" vec good_bad (Some (union_feature_fn vec_name)) = None).
  { intros n v [[= <- <-]|[[= <- <-]|[]]]; reflexivity. }
  split; [exact H|].
  exact (proj2 (proj1 (union_none_iff_every_source_none
                         analyzer build_span_analyzer "tok"
                         [("a", declining); ("b", OtherEstimator)] good_bad))
               H).
Defined.

Lemma empty_inputs_witness :
  align "" silent good_bad None =
    Some ([], mkDocWeightedSpans "" [] true None) /\
  align "good movie" words (mkFeatureWeights [] [] 0 0)
        (Some (union_feature_fn "a")) =
    Some ([], mkDocWeightedSpans "good movie" [] false None) /\
  align "good movie" declining good_bad None = None.
Proof.
  split; [|split].
  - apply (proj2 (empty_inputs_give_empty_spans
                    analyzer build_span_analyzer "" silent good_bad None)
             (mkVectorizer "char_wb" (Some [])) (fun _ => []));
      [reflexivity | reflexivity | now left].
  - apply (proj2 (empty_inputs_give_empty_spans
                    analyzer build_span_analyzer "good movie" words
                    (mkFeatureWeights [] [] 0 0) (Some (union_feature_fn "a")))
             (mkVectorizer "word"
                (Some [([(0, 4)], "good"); ([(5, 10)], "movie")]))
             (fun _ => [([(0, 4)], "good"); ([(5, 10)], "movie")]));
      [reflexivity | reflexivity | now right].
  - apply (proj1 (empty_inputs_give_empty_spans
                    analyzer build_span_analyzer "good movie" declining
                    good_bad None)).
    right. exists (mkVectorizer "word" None). now split.
Defined.

End Examples.

(** * Further properties of the alignment and of the residual *)

(** ** Names, the lookup table and the spans *)

Lemma In_filter_truthy (xs : list (option string)) (y : string) :
  In y (filter_truthy xs) <-> y <> EmptyString /\ In (Some y) xs.
Proof.
  induction xs as [|[[|c s]|] xs IH]; simpl.
  - tauto.
  - rewrite IH. split; [tauto|]. intros [Hy [[= <-]|H]]; [congruence | tauto].
  - rewrite IH. split.
    + intros [<-|[Hy H]]; [split; [discriminate | now left] | tauto].
    + intros [Hy [[= <-]|H]]; tauto.
  - rewrite IH. split; [tauto|]. intros [Hy [H|H]]; [discriminate | tauto].
Qed.

(** X1 (names under the filter of a source).  Under the filter of the
    source [vec_name], the names of a feature are the non-empty strings [y]
    such that [vec_name], "__" and [y] together make one of its unfiltered
    names: a name without the prefix, and the bare prefix itself, give
    nothing. *)
Theorem names_under_source_filter (feat : Feature) (vec_name y : string) :
  In y (_get_features feat (Some (union_feature_fn vec_name))) <->
  y <> EmptyString /\
  In (String.append vec_name (String.append "__" y)) (_get_features feat None).
Proof.
  unfold _get_features. rewrite In_filter_truthy, in_map_iff. split.
  - intros [Hy [raw [Hfn Hraw]]]. split; [exact Hy|].
    apply union_feature_fn_spec in Hfn. now subst raw.
  - intros [Hy Hraw]. split; [exact Hy|].
    exists (String.append vec_name (String.append "__" y)).
    split; [now apply union_feature_fn_spec | exact Hraw].
Qed.

Lemma last_split {A} (P : A -> bool) (l : list A) :
  existsb P l = true ->
  exists l1 x l2, l = l1 ++ x :: l2 /\ P x = true /\
                  forall y, In y l2 -> P y = false.
Proof.
  induction l as [|a l IH]; simpl; [discriminate|]. intros H.
  destruct (existsb P l) eqn:E.
  - destruct (IH eq_refl) as [l1 [x [l2 [-> [Hx Hl2]]]]].
    exists (a :: l1), x, l2. auto.
  - rewrite orb_false_r in H. exists [], a, l. repeat split; [exact H|].
    intros y Hy. destruct (P y) eqn:Ey; [|reflexivity].
    assert (Hex : existsb P l = true) by (apply existsb_exists; eauto).
    congruence.
Qed.

Lemma existsb_eqb_In (f : string) (l : list string) :
  existsb (String.eqb f) l = true <-> In f l.
Proof.
  rewrite existsb_exists. split.
  - intros [x [Hx E]]. apply String.eqb_eq in E. now subst x.
  - intros H. exists f. split; [exact H | apply String.eqb_refl].
Qed.

(** X2 (lookups in the table).  An identifier is missing from the table
    exactly when no entry has it among its names; otherwise the table gives
    the weight and the key of the last entry, in the order [pos] then [neg]
    by index, that has it among its names. *)
Theorem table_lookup_characterised
    (fw : FeatureWeights Feature)
    (fn : option (string -> option string)) (f : string) :
  (PyDict.get String.eqb (feature_weights_dict fw fn) f = None <->
   forall key x, entry_at fw key = Some x ->
                 ~ In f (_get_features (feature x) fn)) /\
  (forall w key,
     PyDict.get String.eqb (feature_weights_dict fw fn) f = Some (w, key) <->
     exists l1 x l2,
       keyed_entries fw = l1 ++ (key, x) :: l2 /\ weight x = w /\
       In f (_get_features (feature x) fn) /\
       forall kfw, In kfw l2 ->
                   ~ In f (_get_features (feature (snd kfw)) fn)).
Proof.
  split.
  - rewrite (PyDictFacts.get_None_keys String.eqb String.eqb_eq).
    unfold feature_weights_dict, PyDict.of_items.
    rewrite (PyDictFacts.In_keys_update String.eqb String.eqb_eq). split.
    + intros Hno key x Hx Hf. apply Hno. right. unfold PyDict.keys.
      apply in_map_iff. exists (f, (weight x, key)). split; [reflexivity|].
      apply In_table_items. now exists x.
    + intros Hno [[]|Hin]. unfold PyDict.keys in Hin.
      apply in_map_iff in Hin. destruct Hin as [[f' [w key]] [Hf Hin]].
      simpl in Hf. subst f'. apply In_table_items in Hin.
      destruct Hin as [x [Hx [_ Hnames]]]. exact (Hno key x Hx Hnames).
  - intros w key. split.
    + intros Hget. pose proof Hget as Hs.
      apply feature_weights_dict_sound in Hs.
      destruct Hs as [x0 [Hx0 [_ Hf0]]].
      destruct (last_split
                  (fun kfw : Key * FeatureWeight Feature =>
                     existsb (String.eqb f)
                             (_get_features (feature (snd kfw)) fn))
                  (keyed_entries fw)) as [l1 [[k x] [l2 [Hsplit [Hx Hl2]]]]].
      { apply existsb_exists. exists (key, x0). split.
        - now apply In_keyed_entries.
        - now apply existsb_eqb_In. }
      simpl in Hx. apply existsb_eqb_In in Hx.
      assert (Hlater : forall kfw, In kfw l2 ->
                ~ In f (_get_features (feature (snd kfw)) fn)).
      { intros kfw Hin Hf. apply existsb_eqb_In in Hf.
        rewrite (Hl2 kfw Hin) in Hf. discriminate. }
      pose proof (feature_weights_dict_last fw fn l1 k x l2 f Hsplit Hx Hlater)
        as Hlast.
      rewrite Hget in Hlast. injection Hlast as -> ->.
      exists l1, x, l2. auto.
    + intros [l1 [x [l2 [Hsplit [<- [Hf Hlater]]]]]].
      now apply (feature_weights_dict_last fw fn l1 key x l2 f).
Qed.

Lemma emitted_pairs tbl items :
  map (fun s : string * list Span * Q => (snd (fst s), fst (fst s)))
      (emitted tbl items) =
  filter (fun item => PyDict.mem String.eqb tbl (snd item)) items.
Proof.
  unfold emitted, PyDict.mem. induction items as [|[sp f] items IH]; simpl.
  - reflexivity.
  - rewrite map_app, IH.
    now destruct (PyDict.get String.eqb tbl f) as [[w k]|].
Qed.

Lemma setitem_length {K V} (eqb : K -> K -> bool) (d : list (K * V)) k v :
  List.length (PyDict.setitem eqb d k v) <= S (List.length d).
Proof.
  induction d as [|[a w] d IH]; simpl.
  - lia.
  - destruct (eqb a k); simpl; lia.
Qed.

Lemma scan_step_lengths tbl items st :
  List.length (snd (fold_left (scan_step tbl) items st)) + List.length (fst st)
  <= List.length (snd st) + List.length (fst (fold_left (scan_step tbl) items st)).
Proof.
  revert st. induction items as [|[sp f] items IH]; intros st.
  - simpl. lia.
  - cbn [fold_left]. pose proof (IH (scan_step tbl st (sp, f))) as IH'.
    assert (Hstep :
      List.length (snd (scan_step tbl st (sp, f))) + List.length (fst st)
      <= List.length (snd st) + List.length (fst (scan_step tbl st (sp, f)))).
    { unfold scan_step.
      destruct (PyDict.get String.eqb tbl f) as [[w k]|]; simpl; [|lia].
      rewrite length_app. simpl.
      pose proof (setitem_length key_eqb (snd st) k w). lia. }
    lia.
Qed.

Section MoreAlignment.
Context {VectorizerMixin : Type}.
Variable analyzer : VectorizerMixin -> string.
Variable build_span_analyzer :
  string -> VectorizerMixin ->
  option (string -> list (list Span * string)) * string.

Local Abbreviation align :=
  (_get_doc_weighted_spans VectorizerMixin analyzer build_span_analyzer).
Local Abbreviation align_union :=
  (_get_weighted_spans_from_union VectorizerMixin analyzer build_span_analyzer).
Local Abbreviation explain :=
  (get_weighted_spans VectorizerMixin analyzer build_span_analyzer).

(** X3 (spans follow the analyzer).  The spans of an alignment are, in the
    order of the analyzer, exactly the pairs it yields whose identifier is in
    the lookup table: a pair with an unknown identifier is skipped, no other
    pair is, and no span is added. *)
Theorem spans_follow_analyzer doc vec fw fn found dws :
  align doc vec fw fn = Some (found, dws) ->
  map (fun s : string * list Span * Q => (snd (fst s), fst (fst s)))
      (spans dws) =
  filter (fun item =>
            PyDict.mem String.eqb (feature_weights_dict fw fn) (snd item))
         (analyzed build_span_analyzer doc vec) /\
  List.length (spans dws) <=
  List.length (analyzed build_span_analyzer doc vec).
Proof.
  intros H. apply align_Some_inv in H.
  destruct H as [v [sa [Hv [Hsa [_ ->]]]]].
  unfold analyzed. rewrite Hv, Hsa. simpl.
  assert (E := emitted_pairs (feature_weights_dict fw fn)
                 (sa (snd (build_span_analyzer doc v)))).
  split; [exact E|].
  rewrite <- (length_map
                (fun s : string * list Span * Q => (snd (fst s), fst (fst s)))),
    E.
  apply filter_length_le.
Qed.

(** X4 (the FoundFeatures map).  The map an alignment returns has pairwise
    distinct keys; its keys are the keys the table gives for the identifiers
    of the emitted spans; it is empty exactly when no span was emitted, and
    has at most as many keys as there are spans. *)
Theorem found_features_shape doc vec fw fn found dws :
  align doc vec fw fn = Some (found, dws) ->
  NoDup (PyDict.keys found) /\
  (forall key,
     In key (PyDict.keys found) <->
     exists f sp w,
       In (f, sp, w) (spans dws) /\
       PyDict.get String.eqb (feature_weights_dict fw fn) f = Some (w, key)) /\
  (found = [] <-> spans dws = []) /\
  List.length found <= List.length (spans dws).
Proof.
  intros H. apply align_Some_inv in H.
  destruct H as [v [sa [_ [_ [-> ->]]]]]. simpl.
  set (tbl := feature_weights_dict fw fn).
  set (items := sa (snd (build_span_analyzer doc v))).
  assert (Hkeys : forall key,
             In key (PyDict.keys (snd (scan tbl items))) <->
             exists f sp w,
               In (f, sp, w) (emitted tbl items) /\
               PyDict.get String.eqb tbl f = Some (w, key)).
  { intros key. rewrite scan_found_keys. split.
    - intros [[sp f] [w [Hin Hget]]]. exists f, sp, w. split; [|exact Hget].
      apply In_emitted. split; [exact Hin | now exists key].
    - intros [f [sp [w [Hin Hget]]]]. apply In_emitted in Hin.
      exists (sp, f), w. tauto. }
  split; [apply scan_found_NoDup|]. split; [exact Hkeys|]. split.
  - split; intros E.
    + assert (Hnone : forall s, ~ In s (emitted tbl items)).
      { intros [[f sp] w] Hin. pose proof Hin as Hk. apply In_emitted in Hk.
        destruct Hk as [_ [key Hget]].
        assert (Hfound : In key (PyDict.keys (snd (scan tbl items)))).
        { apply Hkeys. exists f, sp, w. split; [exact Hin | exact Hget]. }
        rewrite E in Hfound. contradiction. }
      destruct (emitted tbl items) as [|s rest]; [reflexivity|].
      exfalso. apply (Hnone s). now left.
    + assert (Hnone : forall key, ~ In key (PyDict.keys (snd (scan tbl items)))).
      { intros key Hin. apply Hkeys in Hin.
        destruct Hin as [f [sp [w' [Hin _]]]]. rewrite E in Hin.
        contradiction. }
      destruct (snd (scan tbl items)) as [|[key w] rest]; [reflexivity|].
      exfalso. apply (Hnone key). now left.
  - pose proof (scan_step_lengths tbl items ([], [])) as L.
    simpl in L. fold (scan tbl items) in L.
    rewrite scan_spans in L. lia.
Qed.

Lemma align_None_iff doc vec fw fn :
  align doc vec fw fn = None <-> analyzable build_span_analyzer doc vec = false.
Proof.
  rewrite _get_doc_weighted_spans_eq. unfold analyzable.
  destruct (text_vectorizer vec) as [v|]; [|tauto].
  destruct (fst (build_span_analyzer doc v)); cbv zeta; split;
    try discriminate; reflexivity.
Qed.

(** X5 (when nothing is returned).  [get_weighted_spans] returns [None]
    exactly when the vectorizer cannot be analyzed or, for a union, when none
    of its sources can; the feature weights have no part in it. *)
Theorem none_iff_nothing_analyzable doc vec fw :
  explain doc vec fw = None <->
  match vec with
  | FeatureUnion transformer_list =>
      existsb (fun nv => analyzable build_span_analyzer doc (snd nv))
              transformer_list
  | _ => analyzable build_span_analyzer doc vec
  end = false.
Proof.
  assert (Hsingle :
    match align doc vec fw None with
    | Some (found_features, doc_weighted_spans) =>
        Some (mkWeightedSpans [doc_weighted_spans]
                (_get_other fw [(EmptyString, found_features)]))
    | None => None
    end = None <-> analyzable build_span_analyzer doc vec = false).
  { rewrite <- (align_None_iff doc vec fw None).
    destruct (align doc vec fw None) as [[ff d]|]; split;
      try discriminate; reflexivity. }
  destruct vec as [v|inner|tl|]; try exact Hsingle.
  unfold get_weighted_spans, _get_weighted_spans_from_union.
  rewrite union_fold. simpl.
  assert (Hres : union_results analyzer build_span_analyzer doc tl fw = [] <->
                 existsb (fun nv => analyzable build_span_analyzer doc (snd nv)) tl
                 = false).
  { rewrite union_results_nil. split.
    - intros Hall. destruct (existsb _ tl) eqn:E; [|reflexivity].
      apply existsb_exists in E. destruct E as [[n v] [Hin Ha]]. simpl in Ha.
      apply Hall, align_None_iff in Hin. congruence.
    - intros Hex n v Hin. apply align_None_iff.
      destruct (analyzable build_span_analyzer doc v) eqn:E; [|reflexivity].
      assert (existsb (fun nv => analyzable build_span_analyzer doc (snd nv)) tl
              = true) by (apply existsb_exists; exists (n, v); auto).
      congruence. }
  rewrite <- Hres.
  destruct (union_results analyzer build_span_analyzer doc tl fw); simpl;
    split; try discriminate; reflexivity.
Qed.


End MoreAlignment.

(** ** Order and total weight of the residual *)

Lemma StronglySorted_impl_In {A} (R R' : A -> A -> Prop) (l : list A) :
  (forall x y, In x l -> In y l -> R x y -> R' x y) ->
  StronglySorted R l -> StronglySorted R' l.
Proof.
  intros Himp Hs. induction Hs as [|a l Hs IH Hall].
  - constructor.
  - constructor.
    + apply IH. intros x y Hx Hy. apply Himp; now right.
    + rewrite Forall_forall in *. intros y Hy.
      apply Himp; [now left | now right | now apply Hall].
Qed.

(** X6 (order of the two groups).  In the residual, [pos] goes from the
    largest weight down and [neg] from the most negative weight up. *)
Theorem residual_signed_order
    (fw : FeatureWeights Feature) (nff : list (string * FoundFeatures)) :
  StronglySorted (fun x y => (weight y <= weight x)%Q)
                 (pos (_get_other fw nff)) /\
  StronglySorted (fun x y => (weight x <= weight y)%Q)
                 (neg (_get_other fw nff)).
Proof.
  pose proof (sort_abs_desc_sorted (other_items_appended fw nff)) as Hs.
  unfold _get_other, other_items_sorted. simpl. split.
  - apply (StronglySorted_impl_In abs_ge).
    + intros x y Hx Hy H. apply filter_In in Hx, Hy.
      destruct Hx as [_ Hx], Hy as [_ Hy].
      apply Qle_bool_iff in Hx, Hy. unfold abs_ge in H.
      rewrite (Qabs_pos _ Hx), (Qabs_pos _ Hy) in H. exact H.
    + eapply subseq_sorted; [apply filter_subseq | exact Hs].
  - apply (StronglySorted_impl_In abs_ge).
    + intros x y Hx Hy H. apply filter_In in Hx, Hy.
      destruct Hx as [_ Hx], Hy as [_ Hy].
      apply Qlt_bool_iff in Hx, Hy. unfold abs_ge in H.
      rewrite (Qabs_neg (weight x)), (Qabs_neg (weight y)) in H; lra.
    + eapply subseq_sorted; [apply filter_subseq | exact Hs].
Qed.

Lemma map_snd_keyed_entries {F} (fw : FeatureWeights F) :
  map snd (keyed_entries fw) = pos fw ++ neg fw.
Proof.
  assert (Hk : forall g (l : list (FeatureWeight F)), map snd (keyed g l) = l).
  { intros g l. unfold keyed, enumerate. rewrite map_map. simpl.
    generalize 0. induction l as [|a l IH]; intros n; simpl.
    - reflexivity.
    - now rewrite IH. }
  unfold keyed_entries. simpl. now rewrite app_nil_r, map_app, !Hk.
Qed.

Lemma all_found_features_nil nff :
  (forall nf, In nf nff -> snd nf = []) -> all_found_features nff = [].
Proof.
  unfold all_found_features. induction nff as [|[n ff] nff IH]; simpl; intros H.
  - reflexivity.
  - assert (Hff : ff = []) by (apply (H (n, ff)); now left).
    subst ff. simpl. apply IH. intros nf Hnf. apply H. now right.
Qed.

(** X7 (nothing matched).  When every FoundFeatures map is empty, the list
    the accountant builds is the original entries, [pos] then [neg], and the
    residual is that list sorted by descending absolute weight and split by
    sign; no summary is added. *)
Theorem nothing_matched_residual
    (fw : FeatureWeights Feature) (nff : list (string * FoundFeatures)) :
  (forall nf, In nf nff -> snd nf = []) ->
  other_items_appended fw nff = map keep (pos fw ++ neg fw) /\
  other_items_sorted fw nff = sort_abs_desc (map keep (pos fw ++ neg fw)) /\
  Permutation (pos (_get_other fw nff) ++ neg (_get_other fw nff))
              (map keep (pos fw ++ neg fw)).
Proof.
  intros Hempty.
  assert (Hnone : filter (fun nf : string * list (Key * Q) =>
                            PyDict.nonempty (snd nf)) nff = []).
  { clear - Hempty. induction nff as [|[n ff] nff IH]; simpl.
    - reflexivity.
    - assert (Hff : ff = []) by (apply (Hempty (n, ff)); now left).
      subst ff. simpl. apply IH. intros x Hx. apply Hempty. now right. }
  assert (Hall : forall l : list (Key * FeatureWeight Feature),
             filter (fun _ => true) l = l).
  { induction l as [|a l IH]; simpl; [reflexivity | now rewrite IH]. }
  assert (Happ : other_items_appended fw nff = map keep (pos fw ++ neg fw)).
  { rewrite other_items_appended_eq, unmatched_eq.
    rewrite (all_found_features_nil nff Hempty), Hnone. simpl.
    rewrite Hall, app_nil_r, <- map_snd_keyed_entries, map_map.
    reflexivity. }
  split; [exact Happ|]. split.
  - unfold other_items_sorted. now rewrite Happ.
  - rewrite residual_perm_sorted. unfold other_items_sorted.
    rewrite sort_abs_desc_perm. now rewrite Happ.
Qed.








Section TotalWeight.
Context {VectorizerMixin : Type}.
Variable analyzer : VectorizerMixin -> string.
Variable build_span_analyzer :
  string -> VectorizerMixin ->
  option (string -> list (list Span * string)) * string.

Local Abbreviation align :=
  (_get_doc_weighted_spans VectorizerMixin analyzer build_span_analyzer).
Local Abbreviation align_union :=
  (_get_weighted_spans_from_union VectorizerMixin analyzer build_span_analyzer).
Local Abbreviation explain :=
  (get_weighted_spans VectorizerMixin analyzer build_span_analyzer).
Local Abbreviation results := (union_results analyzer build_span_analyzer).



End TotalWeight.

(** X10 (the sort leaves no choice).  A list that is sorted by descending
    absolute weight and keeps, among the entries of every absolute weight,
    the order in which the accountant appended them is the list the
    accountant sorts to: ties are never broken another way. *)
Theorem other_items_sorted_unique
    (fw : FeatureWeights Feature) (nff : list (string * FoundFeatures))
    (l : list (FeatureWeight OtherFeature)) :
  StronglySorted abs_ge l ->
  (forall m, filter (same_abs m) l =
             filter (same_abs m) (other_items_appended fw nff)) ->
  l = other_items_sorted fw nff.
Proof.
  intros Hs Hst. unfold other_items_sorted.
  apply stable_sorted_unique.
  - exact Hs.
  - apply sort_abs_desc_sorted.
  - intros m. rewrite Hst. symmetry. apply sort_abs_desc_stable.
Qed.

(** ** The further properties on concrete inputs *)

Module MoreExamples.
Import Demo.
Local Open Scope string_scope.

Local Abbreviation align :=
  (_get_doc_weighted_spans vectorizer analyzer build_span_analyzer).
Local Abbreviation explain :=
  (get_weighted_spans vectorizer analyzer build_span_analyzer).

Lemma spans_follow_analyzer_witness :
  align "good movie" words good_bad None =
    Some ([((gpos, 0), (2 # 1)%Q)],
          mkDocWeightedSpans "good movie" [("good", [(0, 4)], (2 # 1)%Q)]
            false None) /\
  [([(0, 4)], "good")] =
    filter (fun item =>
              PyDict.mem String.eqb (feature_weights_dict good_bad None)
                         (snd item))
           (analyzed build_span_analyzer "good movie" words) /\
  (1 <= 2)%nat.
Proof.
  split; [reflexivity|].
  exact (spans_follow_analyzer analyzer build_span_analyzer
           "good movie" words good_bad None
           [((gpos, 0), (2 # 1)%Q)]
           (mkDocWeightedSpans "good movie" [("good", [(0, 4)], (2 # 1)%Q)]
              false None)
           eq_refl).
Defined.

Lemma found_features_shape_witness :
  align "good movie" words good_bad None =
    Some ([((gpos, 0), (2 # 1)%Q)],
          mkDocWeightedSpans "good movie" [("good", [(0, 4)], (2 # 1)%Q)]
            false None) /\
  NoDup (PyDict.keys [((gpos, 0), (2 # 1)%Q)]) /\
  (1 <= 1)%nat.
Proof.
  split; [reflexivity|].
  destruct (found_features_shape analyzer build_span_analyzer
              "good movie" words good_bad None
              [((gpos, 0), (2 # 1)%Q)]
              (mkDocWeightedSpans "good movie" [("good", [(0, 4)], (2 # 1)%Q)]
                 false None)
              eq_refl) as [Hnd [_ [_ Hlen]]].
  split; [exact Hnd | exact Hlen].
Defined.

Lemma nothing_matched_witness :
  (forall nf, In nf [("", @nil (Key * Q))] -> snd nf = []) /\
  other_items_sorted good_bad [("", [])] =
    sort_abs_desc (map keep (pos good_bad ++ neg good_bad)).
Proof.
  assert (H : forall nf : string * FoundFeatures,
             In nf [("", @nil (Key * Q))] -> snd nf = []).
  { intros nf [<-|[]]. reflexivity. }
  split; [exact H|].
  exact (proj1 (proj2 (nothing_matched_residual good_bad [("", [])] H))).
Defined.



Lemma other_items_sorted_unique_witness :
  StronglySorted abs_ge
    [mkFeatureWeight (Kept (Atomic "good")) (2 # 1)%Q;
     mkFeatureWeight (Kept (Atomic "bad")) (- 1 # 1)%Q] /\
  [mkFeatureWeight (Kept (Atomic "good")) (2 # 1)%Q;
   mkFeatureWeight (Kept (Atomic "bad")) (- 1 # 1)%Q] =
  other_items_sorted good_bad [].
Proof.
  assert (Hs : StronglySorted abs_ge
                 [mkFeatureWeight (Kept (Atomic "good")) (2 # 1)%Q;
                  mkFeatureWeight (Kept (Atomic "bad")) (- 1 # 1)%Q]).
  { repeat constructor. unfold abs_ge. simpl.
    apply Qle_bool_iff. reflexivity. }
  split; [exact Hs|].
  apply (other_items_sorted_unique good_bad []); [exact Hs|].
  intros m. reflexivity.
Defined.

End MoreExamples.
